(** * tongen: a vanity-address search for TON wallets

    A shallow embedding of [main.go] (parseFlags, runWalletGenerator,
    processWallets, logProgress, printFoundWallet, writeToFile) and the
    properties of its search engine.

    The goroutines of the program are modelled as an interleaving of atomic
    steps: one step per access to the shared objects ([stopChan], the
    [sync.Once], the [uint64] counter, the output streams).  The calls into
    the wallet library and into [strings.ToLower] are parameters of the
    development. *)

From Stdlib Require Import ZArith Lia List Ascii String Bool.
From stdpp Require Import base list gmap strings.
Import ListNotations.

Open Scope Z_scope.

(** ** Go strings

    A Go [string] is a sequence of bytes. *)

Abbreviation gostring := (list ascii).

Definition str (s : string) : gostring := list_ascii_of_string s.

(** [strings.HasSuffix]:
    [len(s) >= len(suffix) && s[len(s)-len(suffix):] == suffix]. *)
Definition HasSuffix (s suffix : gostring) : bool :=
  (length suffix <=? length s)%nat
  && bool_decide (drop (length s - length suffix) s = suffix).

(** [strings.Join(elems, sep)]. *)
Fixpoint Join (elems : list gostring) (sep : gostring) : gostring :=
  match elems with
  | [] => []
  | [e] => e
  | e :: rest => e ++ sep ++ Join rest sep
  end.

(** The ASCII path of [strings.ToLower]: bytes ['A'..'Z'] are moved to
    ['a'..'z'], every other byte below [utf8.RuneSelf] is kept.  It is used
    for the worked examples only; the theorems are stated for the fold the
    program is linked with. *)
Definition lowerByte (c : ascii) : ascii :=
  let n := nat_of_ascii c in
  if ((65 <=? n) && (n <=? 90))%nat then ascii_of_nat (n + 32) else c.

Definition asciiToLower (s : gostring) : gostring := map lowerByte s.

(** ** Configuration *)

(** [type Config struct]; Go's [int] is kept as [Z]. *)
Record Config := mkConfig {
  Version : Z;
  Suffix : gostring;
  CaseSensitive : bool;
  Bounce : bool;
  Threads : Z;
  Testnet : bool;
  Output : gostring;
  Daemon : bool
}.

(** The suffix comparison of [processWallets]:
    [strings.HasSuffix(addressStr, config.Suffix)] when the comparison is
    case-sensitive, and
    [strings.HasSuffix(strings.ToLower(addressStr), strings.ToLower(config.Suffix))]
    otherwise. *)
Definition suffixMatch (ToLower : gostring -> gostring)
    (addressStr suffix : gostring) (caseSensitive : bool) : bool :=
  if caseSensitive then HasSuffix addressStr suffix
  else HasSuffix (ToLower addressStr) (ToLower suffix).

(** ** The wallet library and the environment

    [wallet.FromSeed] receives the seed and either the constant [wallet.V4R2]
    or a [wallet.ConfigV5R1Final] value. *)
Inductive VersionConfig :=
| V4R2
| ConfigV5R1Final (NetworkGlobalID : Z) (Workchain : Z).

(** A Go [error] is represented by its message. *)
Abbreviation error := (list ascii).

(** What one call of [writeToFile] meets in the file system: success, a
    failing [os.OpenFile], or a [WriteString] that fails after [written]
    bytes. *)
Inductive IoOutcome :=
| IoOk
| OpenFails (err : error)
| WriteFails (written : nat) (err : error).

(** The values a worker step takes from outside the program:
    [wallet.NewSeed()], [time.Now().Format("2006-01-02 15:04:05")] and the
    fate of the file write. *)
Record Env := mkEnv {
  newSeed : list gostring;
  timeNow : gostring;
  io : IoOutcome
}.

(** ** Output streams and files *)

(** The lines written through [log.Printf]. *)
Inductive LogEntry :=
| LogUsingThreads (n : Z)          (* "Using %d threads\n" *)
| LogFailedCreate (err : error)    (* "Failed to create wallet: %v" *)
| LogFailedWrite (err : error)     (* "Failed to write to file: %v" *)
| LogProcessed (n : Z).            (* "Processed %d addresses in the last second\n" *)

Record World := mkWorld {
  stdout : list gostring;
  logs : list LogEntry;
  files : gmap gostring gostring
}.

Definition Println (line : gostring) (w : World) : World :=
  mkWorld (stdout w ++ [line]) (logs w) (files w).

Definition logPrintf (e : LogEntry) (w : World) : World :=
  mkWorld (stdout w) (logs w ++ [e]) (files w).

(** [writeToFile]: [os.OpenFile(filename, O_APPEND|O_CREATE|O_WRONLY, 0644)],
    then [file.WriteString(content)]; the error of either is returned. *)
Definition writeToFile (outcome : IoOutcome) (filename content : gostring)
    (fs : gmap gostring gostring) : gmap gostring gostring * option error :=
  match outcome with
  | OpenFails err => (fs, Some err)
  | WriteFails written err =>
      (<[filename := default [] (fs !! filename) ++ take written content]> fs,
       Some err)
  | IoOk =>
      (<[filename := default [] (fs !! filename) ++ content]> fs, None)
  end.

(** The record of [fmt.Sprintf("=== FOUND %s ===\nSeed: %s\nAddress: %s\n\n", ...)]. *)
Definition nl : gostring := ["010"%char].

Definition foundRecord (timestamp : gostring) (seed : list gostring)
    (address : gostring) : gostring :=
  str "=== FOUND " ++ timestamp ++ str " ===" ++ nl
  ++ str "Seed: " ++ Join seed (str " ") ++ nl
  ++ str "Address: " ++ address ++ nl ++ nl.

(** [printFoundWallet(seed, address, output)].  With [output = ""] this is
    the two-argument [printFoundWallet] of the versions without [-output]. *)
Definition printFoundWallet (env : Env) (seed : list gostring)
    (address output : gostring) (w : World) : World :=
  let w := Println (str "=== FOUND ===") w in
  let w := Println (str "Seed phrase: " ++ Join seed (str " ")) w in
  let w := Println (str "Wallet address: " ++ address) w in
  if bool_decide (output <> []) then
    let timestamp := timeNow env in
    let content := foundRecord timestamp seed address in
    let '(fs, err) := writeToFile (io env) output content (files w) in
    let w := mkWorld (stdout w) (logs w) fs in
    match err with
    | Some e => logPrintf (LogFailedWrite e) w
    | None => Println (str "Results saved to: " ++ output) w
    end
  else w.

(** ** Shared search state and the tasks *)

(** Where a worker goroutine stands inside [processWallets]. *)
Inductive PC :=
| AtSelect                                    (* top of the loop: select on stopChan *)
| AtGenerate                                  (* default branch taken: NewSeed and derivation *)
| AtCompare (seed : list gostring) (addressStr : gostring)  (* err == nil *)
| AtOnce                                      (* printFoundWallet done, before once.Do *)
| AtIncrement                                 (* no match, before atomic.AddUint64 *)
| Returned.

Inductive Task :=
| Worker (i : nat)
| Reporter.

(** One entry per atomic step that a task has taken. *)
Inductive Event :=
| EvStopSeen (t : Task)                       (* the receive from stopChan was selected *)
| EvDefault (i : nat)                         (* the default branch was selected *)
| EvDerived (i : nat) (seed : list gostring) (addressStr : gostring)
| EvDeriveFailed (i : nat) (err : error)
| EvFound (i : nat) (seed : list gostring) (addressStr : gostring)
| EvNoMatch (i : nat)
| EvOnce (i : nat) (closed : bool)            (* once.Do; closed: this call ran close(stopChan) *)
| EvIncr (i : nat)
| EvSample (delta : Z).

Definition actor (e : Event) : Task :=
  match e with
  | EvStopSeen t => t
  | EvDefault i | EvDerived i _ _ | EvDeriveFailed i _ | EvFound i _ _
  | EvNoMatch i | EvOnce i _ | EvIncr i => Worker i
  | EvSample _ => Reporter
  end.

(** The objects created by [runWalletGenerator] and shared by the
    goroutines, the outside world, and the history of the steps taken so far
    (most recent first).  [counter] and [lastCount] are [uint64]. *)
Record State := mkState {
  counter : Z;
  stopClosed : bool;
  onceDone : bool;
  workers : list PC;
  lastCount : Z;
  reporterRunning : bool;
  world : World;
  history : list Event
}.

Definition uint64 (z : Z) : Z := z mod 2 ^ 64.

(** Worker [i] moves to [pc]; the step is recorded. *)
Definition goto (i : nat) (pc : PC) (ev : Event) (s : State) : State :=
  mkState (counter s) (stopClosed s) (onceDone s) (<[i := pc]> (workers s))
    (lastCount s) (reporterRunning s) (world s) (ev :: history s).

Definition withWorld (f : World -> World) (s : State) : State :=
  mkState (counter s) (stopClosed s) (onceDone s) (workers s)
    (lastCount s) (reporterRunning s) (f (world s)) (history s).

(** [atomic.AddUint64(counter, 1)]. *)
Definition atomicAdd (s : State) : State :=
  mkState (uint64 (counter s + 1)) (stopClosed s) (onceDone s) (workers s)
    (lastCount s) (reporterRunning s) (world s) (history s).

(** [once.Do(func() { close(stopChan) })] when the [Once] is still unused. *)
Definition onceClose (s : State) : State :=
  mkState (counter s) true true (workers s)
    (lastCount s) (reporterRunning s) (world s) (history s).

(** [getNetworkID]. *)
Definition getNetworkID (isTestnet : bool) : Z :=
  if isTestnet then -3 else -239.

(** The code the program is linked with: [strings.ToLower],
    [wallet.FromSeed(nil, seed, version)] and the rendering
    [w.WalletAddress().Testnet(t).Bounce(b).String()]. *)
Class Library := mkLibrary {
  ToLower : gostring -> gostring;
  Wallet : Type;
  FromSeed : list gostring -> VersionConfig -> Wallet + error;
  AddressString : Wallet -> bool -> bool -> gostring
}.

(** [generateV5Wallet]. *)
Definition generateV5Wallet `{Library} (seed : list gostring) (config : Config)
    : gostring * option error :=
  match FromSeed seed (ConfigV5R1Final (getNetworkID (Testnet config)) 0) with
  | inr err => ([], Some err)
  | inl w => (AddressString w (Testnet config) (Bounce config), None)
  end.

(** [generateV4Wallet]. *)
Definition generateV4Wallet `{Library} (seed : list gostring) (config : Config)
    : gostring * option error :=
  match FromSeed seed V4R2 with
  | inr err => ([], Some err)
  | inl w => (AddressString w (Testnet config) (Bounce config), None)
  end.

(** One atomic step of worker [i] in [processWallets].  The steps are cut
    at the accesses to what the goroutines share: the poll of [stopChan],
    the derivation (local to the worker, with its log line on failure), the
    comparison together with the writes of [printFoundWallet], the
    [once.Do], and the atomic increment.

    The writes of one call of [printFoundWallet] (three [fmt.Println], the
    file write, a fourth line) are separate calls in the program and may be
    interleaved with the writes of another worker; they are taken here as one
    step.  Which lines are written, how many, and by whom does not depend on
    that; the order of the lines of different workers on standard output
    does, and nothing below is stated about it. *)
Definition processWallets `{Library} (config : Config) (i : nat) (env : Env)
    (s : State) : State :=
  match workers s !! i with
  | None | Some Returned => s
  | Some AtSelect =>
      if stopClosed s then goto i Returned (EvStopSeen (Worker i)) s
      else goto i AtGenerate (EvDefault i) s
  | Some AtGenerate =>
      let seed := newSeed env in
      let '(addressStr, err) :=
        if Version config =? 5 then generateV5Wallet seed config
        else generateV4Wallet seed config in
      match err with
      | Some e =>
          goto i AtSelect (EvDeriveFailed i e)
            (withWorld (logPrintf (LogFailedCreate e)) s)
      | None => goto i (AtCompare seed addressStr) (EvDerived i seed addressStr) s
      end
  | Some (AtCompare seed addressStr) =>
      if suffixMatch ToLower addressStr (Suffix config) (CaseSensitive config)
      then
        goto i AtOnce (EvFound i seed addressStr)
          (withWorld (printFoundWallet env seed addressStr (Output config)) s)
      else goto i AtIncrement (EvNoMatch i) s
  | Some AtOnce =>
      if onceDone s then goto i Returned (EvOnce i false) s
      else goto i Returned (EvOnce i true) (onceClose s)
  | Some AtIncrement => goto i AtSelect (EvIncr i) (atomicAdd s)
  end.

(** Which case the [select] of [logProgress] takes. *)
Inductive Wake :=
| TimerFired
| StopReceived.

(** One round of [logProgress].  A receive from [stopChan] can only be
    selected once the channel is closed. *)
Definition logProgress (wake : Wake) (s : State) : State :=
  if reporterRunning s then
    match wake with
    | StopReceived =>
        if stopClosed s then
          mkState (counter s) (stopClosed s) (onceDone s) (workers s)
            (lastCount s) false (world s) (EvStopSeen Reporter :: history s)
        else s
    | TimerFired =>
        let currentCount := counter s in
        let processedLastSecond := uint64 (currentCount - lastCount s) in
        mkState (counter s) (stopClosed s) (onceDone s) (workers s)
          currentCount true
          (logPrintf (LogProcessed processedLastSecond) (world s))
          (EvSample processedLastSecond :: history s)
    end
  else s.

(** The scheduler's choice: which goroutine takes its next step.  A step of
    a goroutine that has returned (or was never started) changes nothing. *)
Inductive Action :=
| Work (i : nat) (env : Env)
| Report (wake : Wake).

Definition step `{Library} (config : Config) (s : State) (a : Action) : State :=
  match a with
  | Work i env => processWallets config i env s
  | Report wake => logProgress wake s
  end.

Definition exec `{Library} (config : Config) (acts : list Action) (s : State)
    : State :=
  fold_left (step config) acts s.

(** The loop [for i := 0; i < config.Threads; i++ { wg.Add(1); go ... }]. *)
Fixpoint spawnFrom (fuel : nat) (i threads : Z) (ws : list PC) : list PC :=
  match fuel with
  | O => ws
  | S fuel =>
      if i <? threads then spawnFrom fuel (i + 1) threads (ws ++ [AtSelect])
      else ws
  end.

Definition spawn (threads : Z) : list PC :=
  spawnFrom (Z.to_nat threads) 0 threads [].

(** The thread count after
    [if config.Threads == 0 { config.Threads = runtime.NumCPU() }]. *)
Definition resolveThreads (numCPU : Z) (config : Config) : Z :=
  if Threads config =? 0 then numCPU else Threads config.

(** [runWalletGenerator] up to [wg.Wait()]: the state in which the
    goroutines start, over the files [fs] present at that time. *)
Definition runWalletGenerator (numCPU : Z) (config : Config)
    (fs : gmap gostring gostring) : State :=
  let threads := resolveThreads numCPU config in
  let w := logPrintf (LogUsingThreads threads) (mkWorld [] [] fs) in
  mkState 0 false false (spawn threads) 0 true w [].

(** [wg.Wait()] returns once every worker has returned. *)
Definition finished (s : State) : Prop :=
  Forall (fun pc => pc = Returned) (workers s).

(** ** Command line *)

(** The flag values after [fs.Parse]. *)
Record Flags := mkFlags {
  flagVersion : Z;
  flagSuffix : gostring;
  flagCaseSensitive : bool;
  flagBounce : bool;
  flagThreads : Z;
  flagTestnet : bool;
  flagOutput : gostring
}.

(** A function that may end the process through [os.Exit]. *)
Inductive Exits (A : Type) :=
| Return (a : A)
| OsExit (code : Z) (usagePrinted : bool).
Arguments Return {A} a.
Arguments OsExit {A} code usagePrinted.

(** [parseFlags], from the values [fs.Parse] has stored: the check of
    suffix and version, [fs.PrintDefaults()] and [os.Exit(1)], or the
    [Config]. *)
Definition parseFlags (f : Flags) : Exits Config :=
  if bool_decide (flagSuffix f = [])
     || (negb (flagVersion f =? 4) && negb (flagVersion f =? 5))
  then OsExit 1 true
  else
    Return (mkConfig (flagVersion f) (flagSuffix f) (flagCaseSensitive f)
              (flagBounce f) (flagThreads f) (flagTestnet f) (flagOutput f)
              false).

(** [main] in normal mode: [config := parseFlags(); runWalletGenerator(config)]. *)
Definition main (numCPU : Z) (f : Flags) (fs : gmap gostring gostring)
    : Exits State :=
  match parseFlags f with
  | OsExit code usage => OsExit code usage
  | Return config => Return (runWalletGenerator numCPU config fs)
  end.

(** ** Observations on a run *)

Fixpoint count {A : Type} (p : A -> bool) (l : list A) : nat :=
  match l with
  | [] => O
  | x :: l => ((if p x then 1 else 0) + count p l)%nat
  end.

Definition sumZ (l : list Z) : Z := fold_right Z.add 0 l.

(** A call of [once.Do] that ran [close(stopChan)]. *)
Definition isClose (e : Event) : bool :=
  match e with EvOnce _ closed => closed | _ => false end.

(** A call of [printFoundWallet]. *)
Definition isFound (e : Event) : bool :=
  match e with EvFound _ _ _ => true | _ => false end.

Definition isFoundBy (i : nat) (e : Event) : bool :=
  match e with EvFound j _ _ => bool_decide (j = i) | _ => false end.

(** A call of [once.Do] by worker [i], whether it closed the channel or not. *)
Definition isOnceBy (i : nat) (e : Event) : bool :=
  match e with EvOnce j _ => bool_decide (j = i) | _ => false end.

Definition isIncr (e : Event) : bool :=
  match e with EvIncr _ => true | _ => false end.

(** An iteration whose derivation succeeded and whose address does not end
    with the suffix. *)
Definition isRejected `{Library} (config : Config) (e : Event) : bool :=
  match e with
  | EvDerived _ _ addressStr =>
      negb (suffixMatch ToLower addressStr (Suffix config) (CaseSensitive config))
  | _ => false
  end.

(** A worker that holds a rejected candidate it has not counted yet. *)
Definition pendingPC `{Library} (config : Config) (pc : PC) : bool :=
  match pc with
  | AtCompare _ addressStr =>
      negb (suffixMatch ToLower addressStr (Suffix config) (CaseSensitive config))
  | AtIncrement => true
  | _ => false
  end.

(** A worker that is past [printFoundWallet] or has returned. *)
Definition pastPC (pc : PC) : bool :=
  match pc with AtOnce | Returned => true | _ => false end.

(** The numbers printed by [logProgress], oldest first. *)
Fixpoint deltas (l : list LogEntry) : list Z :=
  match l with
  | [] => []
  | LogProcessed n :: l => n :: deltas l
  | _ :: l => deltas l
  end.

Definition banner : gostring := str "=== FOUND ===".

(** The number of found-reports on standard output. *)
Definition foundReports (w : World) : nat :=
  count (fun line => bool_decide (line = banner)) (stdout w).

(** Whether task [t] has left its loop. *)
Definition returned (s : State) (t : Task) : Prop :=
  match t with
  | Worker i => workers s !! i = Some Returned
  | Reporter => reporterRunning s = false
  end.

(** ** Invariants of a run *)

(** The channel is closed exactly when the [Once] has been used, and it was
    closed by one call. *)
Definition InvOnce (s : State) : Prop :=
  stopClosed s = onceDone s
  /\ count isClose (history s) = (if onceDone s then 1 else 0)%nat.

(** What worker [i] has reported, by its place in the loop. *)
Definition InvFound (s : State) : Prop :=
  forall i : nat,
    let found := count (isFoundBy i) (history s) in
    let races := count (isOnceBy i) (history s) in
    match workers s !! i with
    | Some AtOnce => found = 1%nat /\ races = O
    | Some Returned => found = races /\ (races <= 1)%nat
    | _ => found = O /\ races = O
    end.

(** Standard output holds one found-report per call of [printFoundWallet],
    and each call belongs to a worker that is past it. *)
Definition InvReports (s : State) : Prop :=
  foundReports (world s) = count isFound (history s)
  /\ (count isFound (history s) <= count pastPC (workers s))%nat.

(** As long as fewer than [2^64] increments have happened, the counter is
    their number and the reporter's deltas add up to its last sample. *)
Definition InvCounter (s : State) : Prop :=
  Z.of_nat (count isIncr (history s)) < 2 ^ 64 ->
  counter s = Z.of_nat (count isIncr (history s))
  /\ 0 <= lastCount s <= counter s
  /\ sumZ (deltas (logs (world s))) = lastCount s.

Definition InvDeltas (s : State) : Prop :=
  Forall (fun d => 0 <= d < 2 ^ 64) (deltas (logs (world s))).

(** Every rejected candidate is either counted or about to be counted. *)
Definition InvPending `{Library} (config : Config) (s : State) : Prop :=
  count (isRejected config) (history s)
  = (count isIncr (history s) + count (pendingPC config) (workers s))%nat.

(** A task that has seen the channel closed has returned and has taken no
    step since. *)
Definition InvStop (s : State) : Prop :=
  forall (later : list Event) (t : Task) (earlier : list Event),
    history s = later ++ EvStopSeen t :: earlier ->
    returned s t /\ Forall (fun e => actor e <> t) later.

(** ** A library for the worked examples

    The address of a wallet is the first word of its seed; an empty seed is
    refused. *)
Definition demoFromSeed (seed : list gostring) (v : VersionConfig)
    : gostring + error :=
  match seed with
  | [] => inr (str "empty seed")
  | w :: _ => inl w
  end.

Definition demoLibrary : Library :=
  mkLibrary asciiToLower gostring demoFromSeed (fun w _ _ => w).

Definition demoConfig (threads : Z) (output : string) : Config :=
  mkConfig 5 (str "ab") false false threads false (str output) false.

Definition seedOf (address : string) : Env :=
  mkEnv [str address] (str "2024-01-01 00:00:00") IoOk.

(** A seed the library refuses. *)
Definition badSeed : Env := mkEnv [] (str "2024-01-01 00:00:00") IoOk.

(** A run on a machine with 8 CPUs and no files. *)
Abbreviation demoStart threads output :=
  (runWalletGenerator 8 (demoConfig threads output) ∅).

Abbreviation demoRun threads output acts :=
  (@exec demoLibrary (demoConfig threads output) acts (demoStart threads output)).

(** The four steps of one iteration of worker [i]: the select, the
    derivation, the comparison, and the increment or the [once.Do]. *)
Definition iteration (i : nat) (address : string) : list Action :=
  replicate 4 (Work i (seedOf address)).

(** Two workers pass the select before either has found anything; both
    then derive an address that ends with the suffix. *)
Definition raceSchedule : list Action :=
  [ Work 0 (seedOf "xxab"); Work 1 (seedOf "yyAB");
    Work 0 (seedOf "xxab"); Work 1 (seedOf "yyAB");
    Work 0 (seedOf "xxab"); Work 1 (seedOf "yyAB");
    Work 0 (seedOf "xxab"); Work 1 (seedOf "yyAB") ].

(** The single worker rejects one candidate before the reporter's first
    tick; it then rejects another and finds a match before the second tick,
    and the reporter leaves on the stop signal. *)
Definition lateSchedule : list Action :=
  iteration 0 "zzzz" ++ [Report TimerFired] ++ iteration 0 "zzzz"
  ++ iteration 0 "xxab" ++ [Report StopReceived].

(** Worker 0 finds a match and closes the channel, worker 1 sees it closed,
    and the reporter leaves. *)
Definition stopSchedule : list Action :=
  iteration 0 "xxab" ++ [Work 1 (seedOf "zzzz"); Report StopReceived;
                         Work 1 (seedOf "zzzz")].

(** The configuration built by [parseFlags] from accepted flags. *)
Definition configOf (f : Flags) : Config :=
  mkConfig (flagVersion f) (flagSuffix f) (flagCaseSensitive f)
    (flagBounce f) (flagThreads f) (flagTestnet f) (flagOutput f) false.

(** A string all of whose bytes are below [utf8.RuneSelf]; on such strings
    [strings.ToLower] takes its ASCII path. *)
Definition isASCII (s : gostring) : bool :=
  forallb (fun c => (nat_of_ascii c <? 128)%nat) s.

(** ** Further observations on a run *)

(** The version value a worker hands to [wallet.FromSeed]. *)
Definition versionConfig (config : Config) : VersionConfig :=
  if Version config =? 5
  then ConfigV5R1Final (getNetworkID (Testnet config)) 0
  else V4R2.

(** An iteration that passed the select. *)
Definition isDefault (e : Event) : bool :=
  match e with EvDefault _ => true | _ => false end.

Definition isFailed (e : Event) : bool :=
  match e with EvDeriveFailed _ _ => true | _ => false end.

(** A worker in the middle of an iteration that has not yet ended in a
    failure, a found-report or an increment. *)
Definition inFlight (pc : PC) : bool :=
  match pc with
  | AtGenerate | AtCompare _ _ | AtIncrement => true
  | _ => false
  end.

(** The steps a worker needs at most to return once the channel is closed. *)
Definition rank (pc : PC) : nat :=
  match pc with
  | Returned => 0
  | AtSelect | AtOnce => 1
  | AtIncrement => 2
  | AtCompare _ _ => 3
  | AtGenerate => 4
  end.

(** The steps of worker [i] in a schedule. *)
Fixpoint stepsOf (i : nat) (acts : list Action) : nat :=
  match acts with
  | [] => O
  | Work j _ :: acts => ((if bool_decide (j = i) then 1 else 0) + stepsOf i acts)%nat
  | Report _ :: acts => stepsOf i acts
  end.

Definition isReport (a : Action) : bool :=
  match a with Report _ => true | Work _ _ => false end.



(** The log lines about failed derivations. *)
Definition isFailedLine (e : LogEntry) : bool :=
  match e with LogFailedCreate _ => true | _ => false end.

(** [fs'] keeps every file of [fs], with at most something appended to
    [output], and has no other new file than [output]. *)
Definition appendedTo (output : gostring) (fs fs' : gmap gostring gostring)
    : Prop :=
  forall f : gostring,
    (f <> output -> fs' !! f = fs !! f)
    /\ (forall old, fs !! f = Some old ->
        exists extra, fs' !! f = Some (old ++ extra)).

(** Every worker that has returned did so on a closed channel, and the
    channel is closed only after a found-report. *)
Definition InvEnd (s : State) : Prop :=
  (forall i : nat, workers s !! i = Some Returned -> stopClosed s = true)
  /\ (stopClosed s = true -> (1 <= count isFound (history s))%nat).

(** Every address a worker compares or has reported is the library's
    rendering of the wallet derived from its seed, and a reported address
    ends with the suffix. *)
Definition derivedFrom `{Library} (config : Config) (seed : list gostring)
    (address : gostring) : Prop :=
  exists w : Wallet,
    FromSeed seed (versionConfig config) = inl w
    /\ address = AddressString w (Testnet config) (Bounce config).

Definition InvSound `{Library} (config : Config) (s : State) : Prop :=
  (forall i seed address,
      workers s !! i = Some (AtCompare seed address) ->
      derivedFrom config seed address)
  /\ (forall i seed address,
      In (EvFound i seed address) (history s) ->
      derivedFrom config seed address
      /\ suffixMatch ToLower address (Suffix config) (CaseSensitive config)
         = true).

(** Every iteration that passed the select has ended in a failure, a
    found-report or an increment, or is still in flight; every failure has
    its log line. *)
Definition InvIter (s : State) : Prop :=
  count isDefault (history s)
  = (count isFailed (history s) + count isFound (history s)
     + count isIncr (history s) + count inFlight (workers s))%nat
  /\ count isFailedLine (logs (world s)) = count isFailed (history s).

(** The steps a worker needs at most to close the channel, when it is open
    and the seeds it is given derive an address that matches. *)
Definition closeRank `{Library} (config : Config) (pc : PC) : nat :=
  match pc with
  | Returned => 0
  | AtOnce => 1
  | AtCompare _ address =>
      if suffixMatch ToLower address (Suffix config) (CaseSensitive config)
      then 2 else 6
  | AtGenerate => 3
  | AtSelect => 4
  | AtIncrement => 5
  end.

(** Four steps for each of the workers [first], ..., [first + n - 1]. *)
Definition sweep (env : Env) (first n : nat) : list Action :=
  flat_map (fun k => replicate 4 (Work k env)) (seq first n).

(** ** The command line of the daemon-capable version *)

(** [arg == "-d" || arg == "--daemon"]. *)
Definition isDaemonFlag (arg : gostring) : bool :=
  bool_decide (arg = str "-d") || bool_decide (arg = str "--daemon").

(** The loop of [main] that sets [isDaemon] and breaks at the first hit. *)
Fixpoint detectDaemon (args : list gostring) : bool :=
  match args with
  | [] => false
  | arg :: args => if isDaemonFlag arg then true else detectDaemon args
  end.

(** The loop of [parseFlags] that copies [os.Args] to [filteredArgs],
    skipping the daemon flags. *)
Fixpoint filterArgs (args filteredArgs : list gostring) : list gostring :=
  match args with
  | [] => filteredArgs
  | arg :: args =>
      if isDaemonFlag arg then filterArgs args filteredArgs
      else filterArgs args (filteredArgs ++ [arg])
  end.

(** [filteredArgs[1:]], the arguments given to [fs.Parse]; the slice
    expression panics on an empty [filteredArgs]. *)
Definition parsedArgs (osArgs : list gostring) : option (list gostring) :=
  match filterArgs osArgs [] with
  | [] => None
  | _ :: rest => Some rest
  end.

(** [len(os.Args) > 1 && (os.Args[1] == "stop" || os.Args[1] == "--stop")]. *)
Definition isStopCommand (osArgs : list gostring) : bool :=
  match osArgs with
  | _ :: arg :: _ =>
      bool_decide (arg = str "stop") || bool_decide (arg = str "--stop")
  | _ => false
  end.

(** The branch [main] takes. *)
Inductive Mode :=
| StopMode            (* stopDaemon() *)
| DaemonMode          (* daemonContext.Reborn(), then the search in the child *)
| NormalMode.         (* the search in the foreground *)

Definition mainMode (osArgs : list gostring) : Mode :=
  if isStopCommand osArgs then StopMode
  else if detectDaemon osArgs then DaemonMode
  else NormalMode.

(** ** The earlier versions of the program *)

(** The version with [-version] and without [-output]: its worker differs
    in [printFoundWallet], which takes no output path. *)
Module WithVersion.

Record Config := {
  Version : Z;
  Suffix : gostring;
  CaseSensitive : bool;
  Bounce : bool;
  Threads : Z;
  Testnet : bool
}.

Record Flags := {
  flagVersion : Z;
  flagSuffix : gostring;
  flagCaseSensitive : bool;
  flagBounce : bool;
  flagThreads : Z;
  flagTestnet : bool
}.

Definition parseFlags (f : Flags) : Exits Config :=
  if bool_decide (flagSuffix f = [])
     || (negb (flagVersion f =? 4) && negb (flagVersion f =? 5))
  then OsExit 1 true
  else
    Return (Build_Config (flagVersion f) (flagSuffix f) (flagCaseSensitive f)
              (flagBounce f) (flagThreads f) (flagTestnet f)).

Definition printFoundWallet (seed : list gostring) (address : gostring)
    (w : World) : World :=
  let w := Println (str "=== FOUND ===") w in
  let w := Println (str "Seed phrase: " ++ Join seed (str " ")) w in
  Println (str "Wallet address: " ++ address) w.

Definition generateV5Wallet `{Library} (seed : list gostring) (config : Config)
    : gostring * option error :=
  match FromSeed seed (ConfigV5R1Final (getNetworkID (Testnet config)) 0) with
  | inr err => ([], Some err)
  | inl w => (AddressString w (Testnet config) (Bounce config), None)
  end.

Definition generateV4Wallet `{Library} (seed : list gostring) (config : Config)
    : gostring * option error :=
  match FromSeed seed V4R2 with
  | inr err => ([], Some err)
  | inl w => (AddressString w (Testnet config) (Bounce config), None)
  end.

Definition processWallets `{Library} (config : Config) (i : nat) (env : Env)
    (s : State) : State :=
  match workers s !! i with
  | None | Some Returned => s
  | Some AtSelect =>
      if stopClosed s then goto i Returned (EvStopSeen (Worker i)) s
      else goto i AtGenerate (EvDefault i) s
  | Some AtGenerate =>
      let seed := newSeed env in
      let '(addressStr, err) :=
        if Version config =? 5 then generateV5Wallet seed config
        else generateV4Wallet seed config in
      match err with
      | Some e =>
          goto i AtSelect (EvDeriveFailed i e)
            (withWorld (logPrintf (LogFailedCreate e)) s)
      | None => goto i (AtCompare seed addressStr) (EvDerived i seed addressStr) s
      end
  | Some (AtCompare seed addressStr) =>
      if suffixMatch ToLower addressStr (Suffix config) (CaseSensitive config)
      then
        goto i AtOnce (EvFound i seed addressStr)
          (withWorld (printFoundWallet seed addressStr) s)
      else goto i AtIncrement (EvNoMatch i) s
  | Some AtOnce =>
      if onceDone s then goto i Returned (EvOnce i false) s
      else goto i Returned (EvOnce i true) (onceClose s)
  | Some AtIncrement => goto i AtSelect (EvIncr i) (atomicAdd s)
  end.

Definition step `{Library} (config : Config) (s : State) (a : Action) : State :=
  match a with
  | Work i env => processWallets config i env s
  | Report wake => logProgress wake s
  end.

Definition exec `{Library} (config : Config) (acts : list Action) (s : State)
    : State :=
  fold_left (step config) acts s.

(** [main] up to [wg.Wait()]. *)
Definition main (numCPU : Z) (f : Flags) (fs : gmap gostring gostring)
    : Exits (Config * State) :=
  match parseFlags f with
  | OsExit code usage => OsExit code usage
  | Return config =>
      let threads := if Threads config =? 0 then numCPU else Threads config in
      let w := logPrintf (LogUsingThreads threads) (mkWorld [] [] fs) in
      Return (config, mkState 0 false false (spawn threads) 0 true w [])
  end.

(** The same settings in the configuration of the latest version. *)
Definition upgrade (c : Config) :=
  mkConfig (Version c) (Suffix c) (CaseSensitive c) (Bounce c) (Threads c)
    (Testnet c) [] false.

Definition upgradeFlags (f : Flags) :=
  mkFlags (flagVersion f) (flagSuffix f) (flagCaseSensitive f) (flagBounce f)
    (flagThreads f) (flagTestnet f) [].

End WithVersion.

(** The first version: no [-version] flag, always a V5R1Final wallet,
    derived inside the loop. *)
Module Initial.

Record Config := {
  Suffix : gostring;
  CaseSensitive : bool;
  Bounce : bool;
  Threads : Z;
  Testnet : bool
}.

Record Flags := {
  flagSuffix : gostring;
  flagCaseSensitive : bool;
  flagBounce : bool;
  flagThreads : Z;
  flagTestnet : bool
}.

Definition parseFlags (f : Flags) : Exits Config :=
  if bool_decide (flagSuffix f = []) then OsExit 1 true
  else
    Return (Build_Config (flagSuffix f) (flagCaseSensitive f) (flagBounce f)
              (flagThreads f) (flagTestnet f)).

Definition processWallets `{Library} (config : Config) (i : nat) (env : Env)
    (s : State) : State :=
  match workers s !! i with
  | None | Some Returned => s
  | Some AtSelect =>
      if stopClosed s then goto i Returned (EvStopSeen (Worker i)) s
      else goto i AtGenerate (EvDefault i) s
  | Some AtGenerate =>
      let seed := newSeed env in
      match FromSeed seed
              (ConfigV5R1Final (getNetworkID (Testnet config)) 0) with
      | inr e =>
          goto i AtSelect (EvDeriveFailed i e)
            (withWorld (logPrintf (LogFailedCreate e)) s)
      | inl w =>
          let addressStr :=
            AddressString w (Testnet config) (Bounce config) in
          goto i (AtCompare seed addressStr) (EvDerived i seed addressStr) s
      end
  | Some (AtCompare seed addressStr) =>
      if suffixMatch ToLower addressStr (Suffix config) (CaseSensitive config)
      then
        goto i AtOnce (EvFound i seed addressStr)
          (withWorld (WithVersion.printFoundWallet seed addressStr) s)
      else goto i AtIncrement (EvNoMatch i) s
  | Some AtOnce =>
      if onceDone s then goto i Returned (EvOnce i false) s
      else goto i Returned (EvOnce i true) (onceClose s)
  | Some AtIncrement => goto i AtSelect (EvIncr i) (atomicAdd s)
  end.

Definition step `{Library} (config : Config) (s : State) (a : Action) : State :=
  match a with
  | Work i env => processWallets config i env s
  | Report wake => logProgress wake s
  end.

Definition exec `{Library} (config : Config) (acts : list Action) (s : State)
    : State :=
  fold_left (step config) acts s.

Definition main (numCPU : Z) (f : Flags) (fs : gmap gostring gostring)
    : Exits (Config * State) :=
  match parseFlags f with
  | OsExit code usage => OsExit code usage
  | Return config =>
      let threads := if Threads config =? 0 then numCPU else Threads config in
      let w := logPrintf (LogUsingThreads threads) (mkWorld [] [] fs) in
      Return (config, mkState 0 false false (spawn threads) 0 true w [])
  end.

Definition upgrade (c : Config) :=
  mkConfig 5 (Suffix c) (CaseSensitive c) (Bounce c) (Threads c) (Testnet c)
    [] false.

Definition upgradeFlags (f : Flags) :=
  mkFlags 5 (flagSuffix f) (flagCaseSensitive f) (flagBounce f)
    (flagThreads f) (flagTestnet f) [].

End Initial.

(** * Properties *)

(** ** The suffix matcher *)

Lemma HasSuffix_true (s suffix : gostring) :
  HasSuffix s suffix = true <-> exists p, s = p ++ suffix.
Proof.
  unfold HasSuffix. rewrite andb_true_iff, Nat.leb_le, bool_decide_eq_true.
  split.
  - intros [Hlen Hdrop].
    exists (take (length s - length suffix)%nat s).
    rewrite <- Hdrop at 2. symmetry. apply take_drop.
  - intros [p ->]. rewrite length_app. split; [lia|].
    replace (length p + length suffix - length suffix)%nat
      with (length p) by lia.
    apply drop_app_length.
Qed.

Lemma HasSuffix_nil (s : gostring) : HasSuffix s [] = true.
Proof. apply HasSuffix_true. exists s. by rewrite app_nil_r. Qed.

(** C2. With [case_sensitive = true] the match holds exactly when the
    address ends with the suffix byte for byte; with [case_sensitive = false]
    it holds exactly when the fold of the whole address ends with the fold of
    the whole suffix; an empty suffix matches in both modes (the fold of the
    empty string being empty). *)
Theorem suffixMatch_correct (fold : gostring -> gostring)
    (a s : gostring) (Hfold : fold [] = []) :
  (suffixMatch fold a s true = true <-> exists p, a = p ++ s)
  /\ (suffixMatch fold a s false = true <-> exists p, fold a = p ++ fold s)
  /\ suffixMatch fold a [] true = true
  /\ suffixMatch fold a [] false = true.
Proof.
  unfold suffixMatch. repeat split.
  - apply HasSuffix_true.
  - apply HasSuffix_true.
  - apply HasSuffix_true.
  - apply HasSuffix_true.
  - apply HasSuffix_nil.
  - rewrite Hfold. apply HasSuffix_nil.
Qed.

Example suffixMatch_scenarios :
  suffixMatch asciiToLower (str "UQDxyzXAB") (str "AB") true = true
  /\ suffixMatch asciiToLower (str "UQDxyzXab") (str "AB") true = false
  /\ suffixMatch asciiToLower (str "UQDxyzXAB") (str "ab") false = true.
Proof. repeat split. Qed.

(** The fold is taken of the whole address: folding only the trailing slice
    gives the same bytes for the ASCII fold, checked here on a sample. *)
Example suffixMatch_whole_fold :
  asciiToLower (str "UQDxyzXAB") = str "uqdxyzxab".
Proof. reflexivity. Qed.

(** ** Counting in lists *)

Lemma count_app {A : Type} (p : A -> bool) (l1 l2 : list A) :
  count p (l1 ++ l2) = (count p l1 + count p l2)%nat.
Proof. induction l1 as [|x l1 IH]; simpl; [done|]. rewrite IH. lia. Qed.

Lemma count_le_length {A : Type} (p : A -> bool) (l : list A) :
  (count p l <= length l)%nat.
Proof. induction l as [|x l IH]; simpl; [lia|]. destruct (p x); lia. Qed.

Lemma count_replicate_false {A : Type} (p : A -> bool) (x : A) (n : nat) :
  p x = false -> count p (replicate n x) = O.
Proof. intros Hx. induction n as [|n IH]; simpl; [done|]. by rewrite Hx, IH. Qed.

(** Replacing one element moves the count by the difference of the two. *)
Lemma count_insert {A : Type} (p : A -> bool) (l : list A) (i : nat) (x y : A) :
  l !! i = Some y ->
  (count p (<[i := x]> l) + (if p y then 1 else 0)
   = count p l + (if p x then 1 else 0))%nat.
Proof.
  revert i. induction l as [|z l IH]; intros [|i] Hi; simplify_eq/=.
  - lia.
  - specialize (IH i Hi). lia.
Qed.

Lemma count_all_false {A : Type} (p : A -> bool) (l : list A) :
  Forall (fun x => p x = false) l -> count p l = O.
Proof. induction 1 as [|x l Hx _ IH]; simpl; [done|]. by rewrite Hx, IH. Qed.

(** ** Starting the workers *)

Lemma spawnFrom_replicate (fuel : nat) (i threads : Z) (ws : list PC) :
  fuel = Z.to_nat (threads - i) ->
  spawnFrom fuel i threads ws = ws ++ replicate fuel AtSelect.
Proof.
  revert i ws. induction fuel as [|fuel IH]; intros i ws Hfuel; simpl.
  - by rewrite app_nil_r.
  - destruct (Z.ltb_spec i threads) as [Hlt|Hge]; [|lia].
    rewrite IH by lia. by rewrite <- app_assoc.
Qed.

Lemma spawn_replicate (threads : Z) :
  spawn threads = replicate (Z.to_nat threads) AtSelect.
Proof.
  unfold spawn. rewrite spawnFrom_replicate; [done|]. f_equal. lia.
Qed.

Section Run.

Context {lib : Library}.
Variable config : Config.

(** ** Runs *)

Lemma exec_app (acts1 acts2 : list Action) (s : State) :
  exec config (acts1 ++ acts2) s = exec config acts2 (exec config acts1 s).
Proof. apply fold_left_app. Qed.

(** A property kept by every step holds along every run. *)
Lemma exec_invariant (P : State -> Prop) :
  (forall s a, P s -> P (step config s a)) ->
  forall acts s, P s -> P (exec config acts s).
Proof.
  intros Hstep acts. induction acts as [|a acts IH]; intros s Hs; simpl.
  - done.
  - apply IH, Hstep, Hs.
Qed.

(** The cases of one step: the goals are, in order, the two outcomes of
    the worker's [select], a failed and a successful derivation, a match and
    a rejection, a lost and a won [once.Do], the increment, the idle steps of
    a worker that has returned or does not exist, and the reporter's timer,
    its receive from the closed channel and its idle steps. *)
Ltac step_cases s a :=
  let i := fresh "i" in
  let env := fresh "env" in
  let wake := fresh "wake" in
  destruct a as [i env | wake]; cbn [step];
  [ unfold processWallets;
    let Hpc := fresh "Hpc" in
    destruct (workers s !! i) as [[| |?seed ?addressStr| | |]|] eqn:Hpc;
    [ destruct (stopClosed s) eqn:?Hstop
    | destruct (if Version config =? 5
                then generateV5Wallet (newSeed env) config
                else generateV4Wallet (newSeed env) config)
        as [?addressStr [?err|]] eqn:?Hgen
    | destruct (suffixMatch ToLower addressStr (Suffix config)
                  (CaseSensitive config)) eqn:?Hmatch
    | destruct (onceDone s) eqn:?Honce
    | | | ]
  | unfold logProgress;
    destruct (reporterRunning s) eqn:?Hrun;
    [ destruct wake; [| destruct (stopClosed s) eqn:?Hstop ] | ] ].

(** Rewrite with the flags the case analysis has fixed. *)
Ltac use_flags :=
  repeat match goal with
    | H : ?x = true |- context [?x] => rewrite H
    | H : ?x = false |- context [?x] => rewrite H
    end.

(** Every step adds at most one entry to the history. *)
Lemma step_history (s : State) (a : Action) :
  history (step config s a) = history s
  \/ exists e, history (step config s a) = e :: history s.
Proof. step_cases s a; simpl; eauto. Qed.

Lemma exec_history (acts : list Action) (s : State) :
  exists later, history (exec config acts s) = later ++ history s
                /\ (length later <= length acts)%nat.
Proof.
  revert s. induction acts as [|a acts IH]; intros s; simpl.
  - exists []. split; [done | simpl; lia].
  - destruct (IH (step config s a)) as (later & Hl & Hlen).
    destruct (step_history s a) as [Heq | [e Heq]]; rewrite Heq in Hl.
    + exists later. split; [done | lia].
    + exists (later ++ [e]). rewrite <- app_assoc. split; [done|].
      rewrite length_app. simpl. lia.
Qed.

(** ** The outputs of a step *)

Lemma deltas_app (l1 l2 : list LogEntry) :
  deltas (l1 ++ l2) = deltas l1 ++ deltas l2.
Proof.
  induction l1 as [|e l1 IH]; simpl; [done|].
  destruct e; simpl; by rewrite ?IH.
Qed.

Lemma sumZ_app (l1 l2 : list Z) : sumZ (l1 ++ l2) = sumZ l1 + sumZ l2.
Proof. induction l1 as [|x l1 IH]; simpl; [done|]. rewrite IH. lia. Qed.

(** [printFoundWallet] writes no progress line. *)
Lemma printFoundWallet_deltas env seed address output w :
  deltas (logs (printFoundWallet env seed address output w)) = deltas (logs w).
Proof.
  unfold printFoundWallet. case_bool_decide; [|done].
  destruct (io env); simpl; rewrite ?deltas_app; simpl; by rewrite ?app_nil_r.
Qed.

Lemma line_not_banner (c : ascii) (rest : gostring) :
  c <> "="%char -> bool_decide (c :: rest = banner) = false.
Proof. intros Hc. apply bool_decide_eq_false. intros Heq. by inversion Heq. Qed.

(** [printFoundWallet] writes exactly one found-report. *)
Lemma printFoundWallet_reports env seed address output w :
  foundReports (printFoundWallet env seed address output w)
  = S (foundReports w).
Proof.
  unfold printFoundWallet, foundReports. case_bool_decide.
  - destruct (io env); simpl; rewrite !count_app; simpl;
      rewrite ?line_not_banner by done; lia.
  - simpl. rewrite !count_app. simpl. rewrite ?line_not_banner by done. lia.
Qed.

(** ** The invariants hold along every run *)

Lemma InvOnce_step (s : State) (a : Action) :
  InvOnce s -> InvOnce (step config s a).
Proof.
  unfold InvOnce. intros [Hsync Hcount].
  step_cases s a; simpl; use_flags;
    (split; [congruence | first [done | by rewrite Hcount]]).
Qed.

Lemma InvDeltas_step (s : State) (a : Action) :
  InvDeltas s -> InvDeltas (step config s a).
Proof.
  unfold InvDeltas. intros Hd.
  step_cases s a; simpl; rewrite ?printFoundWallet_deltas, ?deltas_app;
    simpl; rewrite ?app_nil_r; try done.
  apply Forall_app. split; [done|]. constructor; [|done].
  unfold uint64. apply Z.mod_pos_bound. lia.
Qed.

Lemma count_incr_step (s : State) (a : Action) :
  (count isIncr (history s) <= count isIncr (history (step config s a)))%nat.
Proof.
  destruct (step_history s a) as [-> | [e ->]]; simpl; lia.
Qed.

Lemma InvCounter_step (s : State) (a : Action) :
  InvCounter s -> InvCounter (step config s a).
Proof.
  unfold InvCounter. intros Hinv Hbound.
  pose proof (count_incr_step s a) as Hmono.
  destruct Hinv as (Hc & Hl & Hsum); [lia|].
  revert Hbound. clear Hmono.
  step_cases s a; simpl; rewrite ?printFoundWallet_deltas, ?deltas_app;
    simpl; rewrite ?app_nil_r; intros Hbound; try done.
  - (* increment *)
    unfold uint64. rewrite Z.mod_small by lia. lia.
  - (* timer *)
    rewrite sumZ_app. simpl. unfold uint64.
    rewrite Z.mod_small by lia. lia.
Qed.

Lemma InvFound_step (s : State) (a : Action) :
  InvFound s -> InvFound (step config s a).
Proof.
  intros Hinv.
  step_cases s a; try exact Hinv; intros i0; specialize (Hinv i0);
    simpl in *.
  all: try (destruct (decide (i0 = i)) as [-> | Hne];
    [ rewrite Hpc in Hinv;
      rewrite list_lookup_insert_eq by (eapply lookup_lt_Some; eauto);
      rewrite ?bool_decide_eq_true_2 by done; simpl; lia
    | rewrite list_lookup_insert_ne by done;
      rewrite ?bool_decide_eq_false_2 by done; exact Hinv ]).
  all: exact Hinv.
Qed.

(** The case analysis leaves the worker's old place in [Hpc]; this brings
    in how the count of [p] changes when worker [i] moves. *)
Ltac moved p :=
  match goal with
  | Hpc : workers ?s !! ?i = Some _ |- context [<[?i := ?pc]> (workers ?s)] =>
      let Hmove := fresh "Hmove" in
      pose proof (count_insert p (workers s) i pc _ Hpc) as Hmove;
      simpl in Hmove
  end.

Lemma InvReports_step (s : State) (a : Action) :
  InvReports s -> InvReports (step config s a).
Proof.
  unfold InvReports. intros [Hout Hpast].
  step_cases s a; simpl; try done;
    rewrite ?printFoundWallet_reports; try moved pastPC;
    unfold foundReports in *; simpl; split; lia.
Qed.

Lemma InvPending_step (s : State) (a : Action) :
  InvPending config s -> InvPending config (step config s a).
Proof.
  unfold InvPending. intros Hinv.
  step_cases s a; simpl; try done; try moved (pendingPC config);
    use_flags; simpl in *; try rewrite Hmatch in *; simpl in *; lia.
Qed.

Lemma InvStop_step (s : State) (a : Action) :
  InvStop s -> InvStop (step config s a).
Proof.
  intros Hinv.
  step_cases s a; try exact Hinv; intros later t earlier Heq; simpl in Heq.
  all: destruct later as [|e later]; simplify_eq/=.
  all: try (split; [ apply list_lookup_insert_eq; eapply lookup_lt_Some; eauto
                   | constructor ]).
  all: try (split; [ done | constructor ]).
  all: match goal with
       | H : history _ = _ ++ _ |- _ =>
           destruct (Hinv _ _ _ H) as [Hret Hquiet]
       end.
  all: destruct t as [j|]; simpl in *.
  all: try (assert (i <> j) by congruence;
            split; [ by rewrite list_lookup_insert_ne
                   | constructor; [ simpl; congruence | done ] ]).
  all: try (split; [ done | constructor; [ done | done ] ]).
  all: congruence.
Qed.

Lemma workers_length_step (s : State) (a : Action) :
  length (workers (step config s a)) = length (workers s).
Proof. step_cases s a; simpl; by rewrite ?length_insert. Qed.

(** No step takes anything off the counter, and the reporter never writes it. *)
Lemma counter_step (s : State) (a : Action) :
  counter (step config s a) = counter s
  \/ (exists i env, a = Work i env)
     /\ counter (step config s a) = uint64 (counter s + 1).
Proof. step_cases s a; simpl; eauto. Qed.

Lemma stop_stays_step (s : State) (a : Action) :
  stopClosed s = true -> stopClosed (step config s a) = true.
Proof. intros Hs. step_cases s a; simpl; congruence. Qed.

(** ** The invariants hold when the goroutines start *)

Section Start.

Variable numCPU : Z.
Variable fs : gmap gostring gostring.

Lemma start_workers :
  workers (runWalletGenerator numCPU config fs)
  = replicate (Z.to_nat (resolveThreads numCPU config)) AtSelect.
Proof. simpl. apply spawn_replicate. Qed.

Lemma start_worker_lookup (i : nat) (pc : PC) :
  workers (runWalletGenerator numCPU config fs) !! i = Some pc -> pc = AtSelect.
Proof. rewrite start_workers. intros [-> _]%lookup_replicate. done. Qed.

Lemma InvOnce_start : InvOnce (runWalletGenerator numCPU config fs).
Proof. by split. Qed.

Lemma InvFound_start : InvFound (runWalletGenerator numCPU config fs).
Proof.
  intros i.
  destruct (workers (runWalletGenerator numCPU config fs) !! i) as [pc|] eqn:Hpc.
  - apply start_worker_lookup in Hpc as ->. by split.
  - by split.
Qed.

Lemma InvReports_start : InvReports (runWalletGenerator numCPU config fs).
Proof. split; simpl; [done | lia]. Qed.

Lemma InvCounter_start : InvCounter (runWalletGenerator numCPU config fs).
Proof. intros _. simpl. lia. Qed.

Lemma InvDeltas_start : InvDeltas (runWalletGenerator numCPU config fs).
Proof. constructor. Qed.

Lemma InvPending_start : InvPending config (runWalletGenerator numCPU config fs).
Proof.
  unfold InvPending. rewrite start_workers, count_replicate_false; done.
Qed.

Lemma InvStop_start : InvStop (runWalletGenerator numCPU config fs).
Proof. intros [|e later] t earlier Heq; discriminate Heq. Qed.

(** The increments of a run are fewer than its steps. *)
Lemma count_incr_run (acts : list Action) :
  (count isIncr (history (exec config acts (runWalletGenerator numCPU config fs)))
   <= length acts)%nat.
Proof.
  destruct (exec_history acts (runWalletGenerator numCPU config fs))
    as (later & -> & Hlen).
  simpl. rewrite app_nil_r. pose proof (count_le_length isIncr later). lia.
Qed.

(** Before the [uint64] wraps, the counter is the number of increments. *)
Lemma counter_run (acts : list Action) :
  Z.of_nat (length acts) < 2 ^ 64 ->
  let s := exec config acts (runWalletGenerator numCPU config fs) in
  counter s = Z.of_nat (count isIncr (history s))
  /\ 0 <= lastCount s <= counter s
  /\ sumZ (deltas (logs (world s))) = lastCount s.
Proof.
  intros Hlen s.
  apply (exec_invariant InvCounter InvCounter_step acts _ InvCounter_start).
  pose proof (count_incr_run acts). lia.
Qed.

End Start.

(** ** The exactly-once termination signal and the found-reports *)


(** ** Derivation failures *)

(** C3. A step in which the derivation fails writes the log line and takes
    the worker back to the top of its loop: the counter, the stop channel
    and the [Once] are as before, no worker has returned because of it, and
    nothing is printed or written. *)
Theorem derivation_failure_skipped (s : State) (i : nat) (env : Env)
    (addressStr : gostring) (err : error) :
  workers s !! i = Some AtGenerate ->
  (if Version config =? 5 then generateV5Wallet (newSeed env) config
   else generateV4Wallet (newSeed env) config) = (addressStr, Some err) ->
  let s' := step config s (Work i env) in
  counter s' = counter s
  /\ stopClosed s' = stopClosed s
  /\ onceDone s' = onceDone s
  /\ workers s' = <[i := AtSelect]> (workers s)
  /\ workers s' !! i = Some AtSelect
  /\ reporterRunning s' = reporterRunning s
  /\ logs (world s') = logs (world s) ++ [LogFailedCreate err]
  /\ stdout (world s') = stdout (world s)
  /\ files (world s') = files (world s)
  /\ history s' = EvDeriveFailed i err :: history s.
Proof.
  intros Hpc Hgen s'. subst s'. simpl. unfold processWallets.
  rewrite Hpc. cbv zeta. rewrite Hgen. simpl.
  repeat split.
  apply list_lookup_insert_eq. eapply lookup_lt_Some; eauto.
Qed.

(** ** Progress reports *)

(** C4 (as the program has it). Every delta the reporter writes is
    non-negative, and, in a run short enough for the [uint64] counter not to
    wrap, the deltas written so far add up to the reporter's last sample,
    which is at most the counter. *)
Theorem progress_deltas (numCPU : Z) (fs : gmap gostring gostring)
    (acts : list Action) :
  Z.of_nat (length acts) < 2 ^ 64 ->
  let s := exec config acts (runWalletGenerator numCPU config fs) in
  Forall (fun d => 0 <= d) (deltas (logs (world s)))
  /\ sumZ (deltas (logs (world s))) = lastCount s
  /\ lastCount s <= counter s.
Proof.
  intros Hlen s.
  destruct (counter_run numCPU fs acts Hlen) as (_ & Hlast & Hsum).
  pose proof (exec_invariant InvDeltas InvDeltas_step acts _
                (InvDeltas_start numCPU fs)) as Hd.
  fold s in Hlast, Hsum, Hd.
  repeat split; [|done|lia].
  eapply Forall_impl; [exact Hd|]. simpl. lia.
Qed.

(** ** The worker count *)

(** C5 (as the program has it). A configured count of 0 becomes the number
    of CPUs and any other count is kept as configured, whatever its sign:
    [parseFlags] does not look at it.  The coordinator starts as many workers
    as the resolved count says, all at the top of their loop.  For a count
    that is not negative, on a machine with at least one CPU, the resolved
    count is at least 1 and exactly that many workers start.  A negative
    count stays negative and no worker is started: the run is over at
    once. *)
Theorem worker_count_resolved (numCPU : Z) (fs : gmap gostring gostring) :
  1 <= numCPU ->
  let n := resolveThreads numCPU config in
  let s := runWalletGenerator numCPU config fs in
  (Threads config = 0 -> n = numCPU)
  /\ (Threads config <> 0 -> n = Threads config)
  /\ length (workers s) = Z.to_nat n
  /\ Forall (fun pc => pc = AtSelect) (workers s)
  /\ (0 <= Threads config -> 1 <= n /\ Z.of_nat (length (workers s)) = n)
  /\ (Threads config < 0 ->
      n = Threads config /\ n < 0 /\ workers s = [] /\ finished s)
  /\ (forall f : Flags,
        flagSuffix f <> [] ->
        flagVersion f = 4 \/ flagVersion f = 5 ->
        exists c, parseFlags f = Return c /\ Threads c = flagThreads f).
Proof.
  intros Hcpu n s. subst n s. unfold finished.
  rewrite start_workers, length_replicate. unfold resolveThreads.
  repeat split.
  - by intros ->.
  - intros Hnz. by destruct (Z.eqb_spec (Threads config) 0).
  - by apply Forall_replicate.
  - destruct (Z.eqb_spec (Threads config) 0); lia.
  - destruct (Z.eqb_spec (Threads config) 0); lia.
  - by destruct (Z.eqb_spec (Threads config) 0); [lia|].
  - destruct (Z.eqb_spec (Threads config) 0); lia.
  - destruct (Z.eqb_spec (Threads config) 0); [lia|].
    by replace (Z.to_nat (Threads config)) with O by lia.
  - destruct (Z.eqb_spec (Threads config) 0); [lia|].
    replace (Z.to_nat (Threads config)) with O by lia. constructor.
  - intros f Hsuffix Hversion. exists (configOf f). split; [|done].
    unfold parseFlags. rewrite bool_decide_eq_false_2 by done.
    destruct Hversion as [H | H]; rewrite H; simpl; unfold configOf;
      by rewrite H.
Qed.

(** ** The counter and the stop signal *)

(** C6. Along a run (short enough for the [uint64] counter not to wrap) the
    counter never decreases, the stop channel, once closed, stays closed and
    is closed by at most one call, and the counter equals the number of
    increments performed by the workers: none is lost. *)
Theorem counter_monotone_stop_once (numCPU : Z) (fs : gmap gostring gostring)
    (acts1 acts2 : list Action) :
  Z.of_nat (length (acts1 ++ acts2)) < 2 ^ 64 ->
  let s1 := exec config acts1 (runWalletGenerator numCPU config fs) in
  let s2 := exec config (acts1 ++ acts2) (runWalletGenerator numCPU config fs) in
  counter s1 <= counter s2
  /\ (stopClosed s1 = true -> stopClosed s2 = true)
  /\ (count isClose (history s2) <= 1)%nat
  /\ counter s1 = Z.of_nat (count isIncr (history s1))
  /\ counter s2 = Z.of_nat (count isIncr (history s2)).
Proof.
  intros Hlen s1 s2. rewrite length_app in Hlen.
  destruct (counter_run numCPU fs acts1) as (Hc1 & _); [lia|].
  destruct (counter_run numCPU fs (acts1 ++ acts2)) as (Hc2 & _);
    [rewrite length_app; lia|].
  fold s1 in Hc1. fold s2 in Hc2.
  assert (s2 = exec config acts2 s1) as Hs2 by apply exec_app.
  repeat split; try done.
  - rewrite Hc1, Hc2, Hs2.
    destruct (exec_history acts2 s1) as (later & -> & _).
    rewrite count_app. lia.
  - rewrite Hs2. apply (exec_invariant (fun s => stopClosed s = true)).
    intros s a. apply stop_stays_step.
  - pose proof (exec_invariant InvOnce InvOnce_step (acts1 ++ acts2) _
                  (InvOnce_start numCPU fs)) as [_ Hclose].
    fold s2 in Hclose. rewrite Hclose. destruct (onceDone s2); lia.
Qed.

(** ** After the stop signal has been seen *)

(** C7. Once a task, worker or reporter, has taken the receive from the
    closed stop channel, it has returned, and no later step of the run is a
    step of that task: it derives no address and increments nothing. *)
Theorem stopped_task_is_quiet (numCPU : Z) (fs : gmap gostring gostring)
    (acts : list Action) (later : list Event) (t : Task)
    (earlier : list Event) :
  let s := exec config acts (runWalletGenerator numCPU config fs) in
  history s = later ++ EvStopSeen t :: earlier ->
  returned s t /\ Forall (fun e => actor e <> t) later.
Proof.
  intros s.
  apply (exec_invariant InvStop InvStop_step acts _ (InvStop_start numCPU fs)).
Qed.

(** ** Persistence of the result *)





(** ** What the counter counts *)

(** C10. When every worker has returned (and the [uint64] counter has not
    wrapped), the counter is the number of iterations whose derivation
    succeeded and whose address did not match: matching candidates and
    failed derivations are not in it. *)
Theorem counter_counts_rejected (numCPU : Z) (fs : gmap gostring gostring)
    (acts : list Action) :
  Z.of_nat (length acts) < 2 ^ 64 ->
  let s := exec config acts (runWalletGenerator numCPU config fs) in
  finished s ->
  counter s = Z.of_nat (count (isRejected config) (history s)).
Proof.
  intros Hlen s Hfin.
  destruct (counter_run numCPU fs acts Hlen) as (Hc & _). fold s in Hc.
  pose proof (exec_invariant (InvPending config) InvPending_step acts _
                (InvPending_start numCPU fs)) as Hp.
  fold s in Hp. unfold InvPending in Hp.
  rewrite Hc, Hp, (count_all_false (pendingPC config) (workers s)); [lia|].
  eapply Forall_impl; [exact Hfin|]. by intros pc ->.
Qed.

(** * Further properties of runs *)

Lemma count_isFoundBy_le (i : nat) (h : list Event) :
  (count (isFoundBy i) h <= count isFound h)%nat.
Proof.
  induction h as [|e h IH]; simpl; [lia|].
  destruct e; simpl; try lia. case_bool_decide; lia.
Qed.

Lemma InvEnd_step (s : State) (a : Action) :
  InvOnce s -> InvFound s -> InvEnd s -> InvEnd (step config s a).
Proof.
  intros [Hsync _] Hfound [Hret Hrep].
  step_cases s a; try (split; assumption).
  all: try (specialize (Hfound i); simpl in Hfound; rewrite Hpc in Hfound;
            pose proof (count_isFoundBy_le i (history s))).
  all: split; simpl.
  all: try (intros k Hk; destruct (decide (k = i)) as [-> | Hne];
            [ rewrite list_lookup_insert_eq in Hk
                by (eapply lookup_lt_Some; eauto);
              first [ discriminate Hk | congruence ]
            | rewrite list_lookup_insert_ne in Hk by done; eauto ]).
  all: try (intros Hs; first [ specialize (Hrep Hs) | specialize (Hrep eq_refl) ];
            lia).
  all: try (intros _; lia).
  all: use_flags; first [ exact Hret | exact Hrep ].
Qed.

(** What a successful derivation returns. *)
Lemma derivedFrom_generate (seed : list gostring) (address : gostring) :
  (if Version config =? 5 then generateV5Wallet seed config
   else generateV4Wallet seed config) = (address, None) ->
  derivedFrom config seed address.
Proof.
  unfold derivedFrom, versionConfig, generateV5Wallet, generateV4Wallet.
  destruct (Version config =? 5).
  - destruct (FromSeed seed _) as [w|e]; intros Heq; simplify_eq. eauto.
  - destruct (FromSeed seed _) as [w|e]; intros Heq; simplify_eq. eauto.
Qed.

Lemma InvSound_step (s : State) (a : Action) :
  InvSound config s -> InvSound config (step config s a).
Proof.
  intros [Hcmp Hrep].
  step_cases s a; try (split; assumption).
  all: split; simpl.
  all: try (intros k seed' address' Hk;
            destruct (decide (k = i)) as [-> | Hne];
            [ rewrite list_lookup_insert_eq in Hk
                by (eapply lookup_lt_Some; eauto);
              simplify_eq; by apply derivedFrom_generate
            | rewrite list_lookup_insert_ne in Hk by done; eauto ]).
  all: try (intros k seed' address' [Hk | Hk]; [ simplify_eq | eauto ]).
  all: try (split; [ eauto | done ]).
  all: eauto.
Qed.

Lemma printFoundWallet_failedLines env seed address output w :
  count isFailedLine (logs (printFoundWallet env seed address output w))
  = count isFailedLine (logs w).
Proof.
  unfold printFoundWallet. case_bool_decide; [|done].
  destruct (io env); simpl; rewrite ?count_app; simpl; lia.
Qed.

Lemma InvIter_step (s : State) (a : Action) :
  InvIter s -> InvIter (step config s a).
Proof.
  unfold InvIter. intros [Hiter Hlines].
  step_cases s a; simpl; try done; try moved inFlight;
    rewrite ?printFoundWallet_failedLines, ?count_app; simpl; split; lia.
Qed.

(** ** Files *)

Lemma appendedTo_refl (output : gostring) (fs : gmap gostring gostring) :
  appendedTo output fs fs.
Proof.
  intros f. split; [done|]. intros old Hold. exists []. by rewrite app_nil_r.
Qed.

Lemma appendedTo_trans (output : gostring)
    (fs1 fs2 fs3 : gmap gostring gostring) :
  appendedTo output fs1 fs2 -> appendedTo output fs2 fs3 ->
  appendedTo output fs1 fs3.
Proof.
  intros H12 H23 f. destruct (H12 f) as [Hne12 Hold12].
  destruct (H23 f) as [Hne23 Hold23]. split.
  - intros Hf. rewrite Hne23, Hne12; done.
  - intros old Hold. destruct (Hold12 old Hold) as [x1 Hx1].
    destruct (Hold23 _ Hx1) as [x2 Hx2]. exists (x1 ++ x2).
    by rewrite app_assoc.
Qed.

Lemma appendedTo_insert (output extra : gostring)
    (fs : gmap gostring gostring) :
  appendedTo output fs
    (<[output := default [] (fs !! output) ++ extra]> fs).
Proof.
  intros f. split.
  - intros Hf. by rewrite lookup_insert_ne.
  - intros old Hold. destruct (decide (f = output)) as [-> | Hf].
    + rewrite lookup_insert_eq, Hold. simpl. eauto.
    + rewrite lookup_insert_ne by done. exists []. by rewrite app_nil_r.
Qed.

Lemma printFoundWallet_files env seed address output w :
  appendedTo output (files w)
    (files (printFoundWallet env seed address output w)).
Proof.
  unfold printFoundWallet. case_bool_decide; [|apply appendedTo_refl].
  destruct (io env); simpl;
    first [ apply appendedTo_insert | apply appendedTo_refl ].
Qed.

Lemma files_step (s : State) (a : Action) :
  appendedTo (Output config) (files (world s))
    (files (world (step config s a))).
Proof.
  step_cases s a; simpl;
    first [ apply printFoundWallet_files | apply appendedTo_refl ].
Qed.

(** ** The reporter alone *)

Lemma report_step (wake : Wake) (s : State) :
  let s' := logProgress wake s in
  counter s' = counter s /\ stopClosed s' = stopClosed s
  /\ onceDone s' = onceDone s /\ workers s' = workers s
  /\ stdout (world s') = stdout (world s)
  /\ files (world s') = files (world s).
Proof.
  intros s'. subst s'. unfold logProgress.
  repeat case_match; simpl; repeat split; congruence.
Qed.

(** ** After the channel is closed *)

(** With the channel closed, each step of a worker brings it closer to its
    return, and the steps of the others leave it where it is. *)
Lemma other_worker_step (s : State) (i k : nat) (env : Env) :
  i <> k ->
  workers (step config s (Work i env)) !! k = workers s !! k.
Proof.
  intros Hne.
  assert (forall a, a = Work i env ->
            workers (step config s a) !! k = workers s !! k) as H.
  { intros a Ha. step_cases s a; simplify_eq; simpl; try done.
    all: by rewrite list_lookup_insert_ne. }
  by apply H.
Qed.

Lemma rank_step (s : State) (a : Action) (k : nat) (pc : PC) :
  stopClosed s = true ->
  workers s !! k = Some pc ->
  exists pc', workers (step config s a) !! k = Some pc'
              /\ (rank pc' <= rank pc - stepsOf k [a])%nat.
Proof.
  intros Hs Hk. destruct a as [i env | wake].
  - destruct (decide (i = k)) as [-> | Hne].
    + simpl stepsOf. rewrite bool_decide_eq_true_2 by done.
      cbn [step]. unfold processWallets. rewrite Hk.
      destruct pc; rewrite ?Hs; repeat case_match; simpl;
        (eexists; split;
         [ first [ apply list_lookup_insert_eq; eapply lookup_lt_Some; eauto
                 | eassumption ]
         | simpl; lia ]).
    + exists pc. rewrite other_worker_step by done. split; [done|].
      simpl. rewrite bool_decide_eq_false_2 by done. lia.
  - exists pc. destruct (report_step wake s) as (_ & _ & _ & Hw & _).
    cbn [step]. rewrite Hw. split; [done | simpl; lia].
Qed.

Lemma rank_exec (acts : list Action) (s : State) (k : nat) (pc : PC) :
  stopClosed s = true ->
  workers s !! k = Some pc ->
  exists pc', workers (exec config acts s) !! k = Some pc'
              /\ (rank pc' <= rank pc - stepsOf k acts)%nat.
Proof.
  revert s pc. induction acts as [|a acts IH]; intros s pc Hs Hk.
  - exists pc. split; [done | simpl; lia].
  - destruct (rank_step s a k pc Hs Hk) as (pc1 & Hk1 & Hr1).
    destruct (IH (step config s a) pc1 (stop_stays_step s a Hs) Hk1)
      as (pc2 & Hk2 & Hr2).
    exists pc2. split; [exact Hk2|].
    simpl in Hr1. destruct a as [j env | wake]; simpl in *; lia.
Qed.

Lemma rank_le_4 (pc : PC) : (rank pc <= 4)%nat.
Proof. destruct pc; simpl; lia. Qed.

Lemma rank_0 (pc : PC) : rank pc = O -> pc = Returned.
Proof. by destruct pc. Qed.

(** With the channel closed, no worker starts a new iteration: an
    increment can only come from an iteration in flight. *)
Lemma inFlight_step (s : State) (a : Action) :
  stopClosed s = true ->
  (count isIncr (history (step config s a))
   + count inFlight (workers (step config s a))
   <= count isIncr (history s) + count inFlight (workers s))%nat.
Proof.
  intros Hs.
  step_cases s a; simpl; try congruence; try moved inFlight; lia.
Qed.

Lemma inFlight_exec (acts : list Action) (s : State) :
  stopClosed s = true ->
  (count isIncr (history (exec config acts s))
   + count inFlight (workers (exec config acts s))
   <= count isIncr (history s) + count inFlight (workers s))%nat.
Proof.
  revert s. induction acts as [|a acts IH]; intros s Hs; simpl; [lia|].
  specialize (IH (step config s a) (stop_stays_step s a Hs)).
  pose proof (inFlight_step s a Hs). lia.
Qed.

(** ** Standard output *)



(** ** The set of workers *)

Lemma returned_step (s : State) (a : Action) (k : nat) :
  workers s !! k = Some Returned ->
  workers (step config s a) !! k = Some Returned.
Proof.
  intros Hk. step_cases s a; simpl; try done.
  all: destruct (decide (i = k)) as [-> | Hne]; [ congruence | ].
  all: by rewrite list_lookup_insert_ne.
Qed.

(** ** One iteration, undisturbed *)

(** X21. An iteration of a worker on a seed whose address matches, taken
    while the channel is open and the [Once] unused: after its four steps the
    worker has returned, the channel is closed, the counter is as before, and
    the world is the one [printFoundWallet] leaves. *)
Theorem matching_iteration (s : State) (k : nat) (env : Env)
    (address : gostring) :
  workers s !! k = Some AtSelect ->
  stopClosed s = false ->
  onceDone s = false ->
  (if Version config =? 5 then generateV5Wallet (newSeed env) config
   else generateV4Wallet (newSeed env) config) = (address, None) ->
  suffixMatch ToLower address (Suffix config) (CaseSensitive config) = true ->
  exec config (replicate 4 (Work k env)) s
  = mkState (counter s) true true (<[k := Returned]> (workers s))
      (lastCount s) (reporterRunning s)
      (printFoundWallet env (newSeed env) address (Output config) (world s))
      ([ EvOnce k true; EvFound k (newSeed env) address;
         EvDerived k (newSeed env) address; EvDefault k ] ++ history s).
Proof.
  intros Hk Hstop Honce Hgen Hmatch.
  assert (k < length (workers s))%nat as Hlt by (eapply lookup_lt_Some; eauto).
  set (a := Work k env).
  set (s1 := goto k AtGenerate (EvDefault k) s).
  set (s2 := goto k (AtCompare (newSeed env) address)
               (EvDerived k (newSeed env) address) s1).
  set (s3 := goto k AtOnce (EvFound k (newSeed env) address)
               (withWorld (printFoundWallet env (newSeed env) address
                             (Output config)) s2)).
  assert (step config s a = s1) as E1.
  { cbn [step a]. unfold processWallets. by rewrite Hk, Hstop. }
  assert (step config s1 a = s2) as E2.
  { cbn [step a]. unfold processWallets. simpl.
    rewrite list_lookup_insert_eq by done. cbv zeta. by rewrite Hgen. }
  assert (step config s2 a = s3) as E3.
  { cbn [step a]. unfold processWallets. simpl.
    rewrite list_lookup_insert_eq by (by rewrite length_insert).
    by rewrite Hmatch. }
  assert (step config s3 a
          = goto k Returned (EvOnce k true) (onceClose s3)) as E4.
  { cbn [step a]. unfold processWallets. simpl.
    rewrite list_lookup_insert_eq by (by rewrite !length_insert).
    by rewrite Honce. }
  unfold exec. cbn [replicate fold_left]. fold a. rewrite E1, E2, E3, E4.
  unfold goto, onceClose, withWorld. simpl.
  by rewrite !list_insert_insert_eq.
Qed.

(** X22. An iteration on a seed whose address does not match leaves no
    trace but the counter: after its four steps the worker is back at the
    select, the counter is one higher, and the stop channel, the [Once], the
    other workers, standard output, the log and the files are as before. *)
Theorem rejected_iteration (s : State) (k : nat) (env : Env)
    (address : gostring) :
  workers s !! k = Some AtSelect ->
  stopClosed s = false ->
  (if Version config =? 5 then generateV5Wallet (newSeed env) config
   else generateV4Wallet (newSeed env) config) = (address, None) ->
  suffixMatch ToLower address (Suffix config) (CaseSensitive config) = false ->
  exec config (replicate 4 (Work k env)) s
  = mkState (uint64 (counter s + 1)) (stopClosed s) (onceDone s) (workers s)
      (lastCount s) (reporterRunning s) (world s)
      ([ EvIncr k; EvNoMatch k; EvDerived k (newSeed env) address;
         EvDefault k ] ++ history s).
Proof.
  intros Hk Hstop Hgen Hmatch.
  assert (k < length (workers s))%nat as Hlt by (eapply lookup_lt_Some; eauto).
  set (a := Work k env).
  set (s1 := goto k AtGenerate (EvDefault k) s).
  set (s2 := goto k (AtCompare (newSeed env) address)
               (EvDerived k (newSeed env) address) s1).
  set (s3 := goto k AtIncrement (EvNoMatch k) s2).
  assert (step config s a = s1) as E1.
  { cbn [step a]. unfold processWallets. by rewrite Hk, Hstop. }
  assert (step config s1 a = s2) as E2.
  { cbn [step a]. unfold processWallets. simpl.
    rewrite list_lookup_insert_eq by done. cbv zeta. by rewrite Hgen. }
  assert (step config s2 a = s3) as E3.
  { cbn [step a]. unfold processWallets. simpl.
    rewrite list_lookup_insert_eq by (by rewrite length_insert).
    by rewrite Hmatch. }
  assert (step config s3 a = goto k AtSelect (EvIncr k) (atomicAdd s3)) as E4.
  { cbn [step a]. unfold processWallets. simpl.
    by rewrite list_lookup_insert_eq by (by rewrite !length_insert). }
  unfold exec. cbn [replicate fold_left]. fold a. rewrite E1, E2, E3, E4.
  unfold goto, atomicAdd. simpl.
  rewrite !list_insert_insert_eq, list_insert_id by done.
  by rewrite Hstop.
Qed.

(** ** Properties of whole runs *)

Lemma InvEnd_start (numCPU : Z) (fs : gmap gostring gostring) :
  InvEnd (runWalletGenerator numCPU config fs).
Proof.
  split.
  - intros i Hi. by apply start_worker_lookup in Hi.
  - simpl. discriminate.
Qed.

Lemma InvSound_start (numCPU : Z) (fs : gmap gostring gostring) :
  InvSound config (runWalletGenerator numCPU config fs).
Proof.
  split.
  - intros i seed address Hi. by apply start_worker_lookup in Hi.
  - intros i seed address [].
Qed.

Lemma InvIter_start (numCPU : Z) (fs : gmap gostring gostring) :
  InvIter (runWalletGenerator numCPU config fs).
Proof.
  unfold InvIter. rewrite start_workers, count_replicate_false; done.
Qed.

Lemma workers_length_run (numCPU : Z) (fs : gmap gostring gostring)
    (acts : list Action) :
  length (workers (exec config acts (runWalletGenerator numCPU config fs)))
  = Z.to_nat (resolveThreads numCPU config).
Proof.
  apply (exec_invariant
           (fun s => length (workers s)
                     = Z.to_nat (resolveThreads numCPU config))).
  - intros s a Hs. by rewrite workers_length_step.
  - rewrite start_workers. apply length_replicate.
Qed.

(** X1. Every wallet a run reports is genuine: its address is the library's
    rendering, for the configured network and bounce flag, of the wallet the
    library derives from the reported seed with the configured version, and
    it ends with the configured suffix. *)
Theorem reported_wallets_are_sound (numCPU : Z) (fs : gmap gostring gostring)
    (acts : list Action) (i : nat) (seed : list gostring)
    (address : gostring) :
  let s := exec config acts (runWalletGenerator numCPU config fs) in
  In (EvFound i seed address) (history s) ->
  (exists w : Wallet,
      FromSeed seed (versionConfig config) = inl w
      /\ address = AddressString w (Testnet config) (Bounce config))
  /\ suffixMatch ToLower address (Suffix config) (CaseSensitive config) = true.
Proof.
  intros s Hin.
  pose proof (exec_invariant (InvSound config) InvSound_step acts _
                (InvSound_start numCPU fs)) as [_ Hrep].
  exact (Hrep i seed address Hin).
Qed.

(** X2. With at least one worker, [wg.Wait()] returns only after a match:
    when every worker has returned, the stop channel is closed and standard
    output holds at least one found-report and at most one per worker. *)
Theorem finished_run_has_match (numCPU : Z) (fs : gmap gostring gostring)
    (acts : list Action) :
  1 <= resolveThreads numCPU config ->
  let s := exec config acts (runWalletGenerator numCPU config fs) in
  finished s ->
  stopClosed s = true
  /\ (1 <= foundReports (world s))%nat
  /\ (foundReports (world s) <= Z.to_nat (resolveThreads numCPU config))%nat.
Proof.
  intros Hn s Hfin.
  pose proof (exec_invariant
                (fun s => InvOnce s /\ InvFound s /\ InvEnd s)
                (fun s a '(conj Ho (conj Hf He)) =>
                   conj (InvOnce_step s a Ho)
                     (conj (InvFound_step s a Hf) (InvEnd_step s a Ho Hf He)))
                acts _
                (conj (InvOnce_start numCPU fs)
                   (conj (InvFound_start numCPU fs) (InvEnd_start numCPU fs))))
    as (_ & _ & Hret & Hrep).
  pose proof (exec_invariant InvReports InvReports_step acts _
                (InvReports_start numCPU fs)) as [Hout Hpast].
  pose proof (workers_length_run numCPU fs acts) as Hlen.
  fold s in Hret, Hrep, Hout, Hpast, Hlen.
  destruct (workers s !! 0%nat) as [pc|] eqn:H0.
  - assert (pc = Returned) as ->.
    { unfold finished in Hfin. rewrite Forall_forall in Hfin.
      apply Hfin. eapply list_elem_of_lookup_2; eauto. }
    pose proof (Hret _ H0) as Hstop. specialize (Hrep Hstop).
    pose proof (count_le_length pastPC (workers s)).
    repeat split; [done | lia | lia].
  - apply lookup_ge_None in H0. lia.
Qed.

Lemma stopped_worker_returns_aux (s : State) (acts : list Action) (k : nat)
    (pc : PC) :
  stopClosed s = true ->
  workers s !! k = Some pc ->
  (4 <= stepsOf k acts)%nat ->
  workers (exec config acts s) !! k = Some Returned.
Proof.
  intros Hs Hk Hsteps.
  destruct (rank_exec acts s k pc Hs Hk) as (pc' & Hk' & Hr).
  pose proof (rank_le_4 pc). rewrite Hk'. f_equal. apply rank_0. lia.
Qed.

(** X3. Shutdown is bounded: once the stop channel is closed, a worker has
    returned after at most four more of its own steps, whatever the other
    goroutines do in between. *)
Theorem stopped_worker_returns (s : State) (acts : list Action) (k : nat)
    (pc : PC) :
  stopClosed s = true ->
  workers s !! k = Some pc ->
  (4 <= stepsOf k acts)%nat ->
  workers (exec config acts s) !! k = Some Returned.
Proof. apply stopped_worker_returns_aux. Qed.

(** X4. After the stop channel is closed the counter rises by at most one
    for each worker that was in the middle of an iteration (in a run short
    enough for the [uint64] counter not to wrap). *)
Theorem increments_after_stop (numCPU : Z) (fs : gmap gostring gostring)
    (acts1 acts2 : list Action) :
  Z.of_nat (length (acts1 ++ acts2)) < 2 ^ 64 ->
  let s1 := exec config acts1 (runWalletGenerator numCPU config fs) in
  let s2 := exec config (acts1 ++ acts2) (runWalletGenerator numCPU config fs) in
  stopClosed s1 = true ->
  counter s2 <= counter s1 + Z.of_nat (count inFlight (workers s1))
  /\ counter s2 <= counter s1 + Z.of_nat (length (workers s1)).
Proof.
  intros Hlen s1 s2 Hs. rewrite length_app in Hlen.
  destruct (counter_run numCPU fs acts1) as (Hc1 & _); [lia|].
  destruct (counter_run numCPU fs (acts1 ++ acts2)) as (Hc2 & _);
    [rewrite length_app; lia|].
  fold s1 in Hc1. fold s2 in Hc2.
  assert (s2 = exec config acts2 s1) as Hs2 by apply exec_app.
  pose proof (inFlight_exec acts2 s1 Hs) as Hflight. rewrite <- Hs2 in Hflight.
  pose proof (count_le_length inFlight (workers s1)) as Hle.
  split; lia.
Qed.

(** X5. Every iteration is accounted for: when all workers have returned,
    the number of iterations that passed the select equals the number of
    failure lines in the log plus the number of found-reports plus the
    counter (in a run short enough for the counter not to wrap). *)
Theorem iterations_accounted (numCPU : Z) (fs : gmap gostring gostring)
    (acts : list Action) :
  Z.of_nat (length acts) < 2 ^ 64 ->
  let s := exec config acts (runWalletGenerator numCPU config fs) in
  finished s ->
  Z.of_nat (count isDefault (history s))
  = Z.of_nat (count isFailedLine (logs (world s)))
    + Z.of_nat (foundReports (world s)) + counter s.
Proof.
  intros Hlen s Hfin.
  destruct (counter_run numCPU fs acts Hlen) as (Hc & _). fold s in Hc.
  pose proof (exec_invariant InvIter InvIter_step acts _
                (InvIter_start numCPU fs)) as [Hiter Hlines].
  pose proof (exec_invariant InvReports InvReports_step acts _
                (InvReports_start numCPU fs)) as [Hout _].
  fold s in Hiter, Hlines, Hout.
  rewrite (count_all_false inFlight (workers s)) in Hiter.
  - lia.
  - eapply Forall_impl; [exact Hfin|]. by intros pc ->.
Qed.



(** X7. A run only ever appends to the output file: every file present at
    the start keeps its content as a prefix, and no file other than the
    output file is created or changed. *)
Theorem files_append_only (numCPU : Z) (fs : gmap gostring gostring)
    (acts : list Action) (f : gostring) :
  let s := exec config acts (runWalletGenerator numCPU config fs) in
  (f <> Output config -> files (world s) !! f = fs !! f)
  /\ (forall old, fs !! f = Some old ->
      exists extra, files (world s) !! f = Some (old ++ extra)).
Proof.
  intros s.
  apply (exec_invariant
           (fun s => appendedTo (Output config) fs (files (world s)))).
  - intros s0 a Hs0. eapply appendedTo_trans; [exact Hs0 | apply files_step].
  - apply appendedTo_refl.
Qed.

(** X8. The reporter is a read-only observer: a stretch of a run in which
    only the reporter moves leaves the counter, the stop channel, the [Once],
    the workers, standard output and the files as they were. *)
Theorem reporter_is_read_only (s : State) (acts : list Action) :
  Forall (fun a => isReport a = true) acts ->
  let s' := exec config acts s in
  counter s' = counter s /\ stopClosed s' = stopClosed s
  /\ onceDone s' = onceDone s /\ workers s' = workers s
  /\ stdout (world s') = stdout (world s)
  /\ files (world s') = files (world s).
Proof.
  intros Hall. revert s. induction Hall as [|a acts Ha _ IH]; intros s.
  - simpl. repeat split.
  - destruct a as [i env | wake]; [discriminate Ha|].
    simpl. specialize (IH (logProgress wake s)). simpl in IH.
    destruct IH as (-> & -> & -> & -> & -> & ->).
    apply report_step.
Qed.

(** X9. A worker that has returned is never started again, and the number
    of workers never changes. *)
Theorem returned_worker_stays (s : State) (acts : list Action) (k : nat) :
  workers s !! k = Some Returned ->
  workers (exec config acts s) !! k = Some Returned
  /\ length (workers (exec config acts s)) = length (workers s).
Proof.
  intros Hk. split.
  - apply (exec_invariant (fun s => workers s !! k = Some Returned));
      [|done]. intros s0 a. apply returned_step.
  - apply (exec_invariant (fun s0 => length (workers s0) = length (workers s)));
      [|done]. intros s0 a Hs0. by rewrite workers_length_step.
Qed.

(** ** A run can always finish *)

(** X19. Once the stop channel is closed no worker starts a new iteration:
    no select takes its default branch any more.  (A worker that had passed
    its select before the close still finishes the iteration it is in.) *)
Theorem no_new_iteration_after_stop (s : State) (acts : list Action) :
  stopClosed s = true ->
  count isDefault (history (exec config acts s)) = count isDefault (history s).
Proof.
  revert s. induction acts as [|a acts IH]; intros s Hs; simpl; [done|].
  rewrite (IH _ (stop_stays_step s a Hs)).
  step_cases s a; simpl; congruence.
Qed.

Lemma close_step (s : State) (k : nat) (pc : PC) (env : Env)
    (address : gostring) :
  InvOnce s ->
  stopClosed s = false ->
  workers s !! k = Some pc ->
  pc <> Returned ->
  (if Version config =? 5 then generateV5Wallet (newSeed env) config
   else generateV4Wallet (newSeed env) config) = (address, None) ->
  suffixMatch ToLower address (Suffix config) (CaseSensitive config) = true ->
  stopClosed (step config s (Work k env)) = true
  \/ exists pc', workers (step config s (Work k env)) !! k = Some pc'
                 /\ pc' <> Returned
                 /\ (closeRank config pc' < closeRank config pc)%nat.
Proof.
  intros [Hsync _] Hstop Hk Hpc Hgen Hmatch.
  assert (k < length (workers s))%nat as Hlt by (eapply lookup_lt_Some; eauto).
  cbn [step]. unfold processWallets. rewrite Hk.
  destruct pc as [| |seed' address'| | |]; try done.
  - rewrite Hstop. right. eexists. split;
      [apply list_lookup_insert_eq; done | split; [done | simpl; lia]].
  - cbv zeta. rewrite Hgen. right. eexists. split;
      [apply list_lookup_insert_eq; done | split; [done|]]. simpl.
    rewrite Hmatch. lia.
  - simpl. destruct (suffixMatch ToLower address' _ _); right; eexists;
      (split; [apply list_lookup_insert_eq; done | split; [done | simpl; lia]]).
  - rewrite <- Hsync, Hstop. by left.
  - right. eexists. split;
      [apply list_lookup_insert_eq; done | split; [done | simpl; lia]].
Qed.

Lemma stop_stays_exec (acts : list Action) (s : State) :
  stopClosed s = true -> stopClosed (exec config acts s) = true.
Proof.
  apply (exec_invariant (fun s => stopClosed s = true)).
  intros s0 a. apply stop_stays_step.
Qed.

Lemma close_exec (n : nat) (s : State) (k : nat) (pc : PC) (env : Env)
    (address : gostring) :
  InvOnce s ->
  stopClosed s = false ->
  workers s !! k = Some pc ->
  pc <> Returned ->
  (if Version config =? 5 then generateV5Wallet (newSeed env) config
   else generateV4Wallet (newSeed env) config) = (address, None) ->
  suffixMatch ToLower address (Suffix config) (CaseSensitive config) = true ->
  (closeRank config pc <= n)%nat ->
  stopClosed (exec config (replicate n (Work k env)) s) = true.
Proof.
  revert s pc. induction n as [|n IH]; intros s pc Hinv Hstop Hk Hpc Hgen Hmatch Hr.
  - destruct pc; simpl in Hr; try lia; try done.
    case_match; lia.
  - change (exec config (replicate (S n) (Work k env)) s)
      with (exec config (replicate n (Work k env)) (step config s (Work k env))).
    destruct (close_step s k pc env address Hinv Hstop Hk Hpc Hgen Hmatch)
      as [Hclosed | (pc' & Hk' & Hpc' & Hlt)].
    + by apply stop_stays_exec.
    + destruct (stopClosed (step config s (Work k env))) eqn:Hs'.
      * by apply stop_stays_exec.
      * apply (IH _ pc'); try done; [by apply InvOnce_step | lia].
Qed.

Lemma closeRank_le_6 (pc : PC) : (closeRank config pc <= 6)%nat.
Proof. destruct pc; simpl; try lia. destruct (suffixMatch _ _ _ _); lia. Qed.

Lemma stepsOf_app (k : nat) (acts1 acts2 : list Action) :
  stepsOf k (acts1 ++ acts2) = (stepsOf k acts1 + stepsOf k acts2)%nat.
Proof.
  induction acts1 as [|[j env | wake] acts1 IH]; simpl; [done| |done].
  rewrite IH. lia.
Qed.

Lemma stepsOf_sweep (k : nat) (env : Env) (first n : nat) :
  (first <= k < first + n)%nat ->
  (4 <= stepsOf k (sweep env first n))%nat.
Proof.
  revert first. induction n as [|n IH]; intros first Hk; [lia|].
  change (sweep env first (S n))
    with (replicate 4 (Work first env) ++ sweep env (S first) n).
  rewrite stepsOf_app. simpl (stepsOf k (replicate 4 _)).
  destruct (decide (first = k)) as [-> | Hne].
  - rewrite !bool_decide_eq_true_2 by done. lia.
  - specialize (IH (S first)). lia.
Qed.

Lemma sweep_finishes (s : State) (env : Env) :
  stopClosed s = true ->
  finished (exec config (sweep env 0 (length (workers s))) s).
Proof.
  intros Hs. unfold finished. apply Forall_lookup. intros k pc Hk.
  assert (k < length (workers s))%nat as Hlt.
  { apply lookup_lt_Some in Hk.
    revert Hk. generalize (sweep env 0 (length (workers s))). intros acts.
    assert (length (workers (exec config acts s)) = length (workers s)) as ->.
    { apply (exec_invariant
               (fun s0 => length (workers s0) = length (workers s))); [|done].
      intros s0 a Hs0. by rewrite workers_length_step. }
    done. }
  destruct (lookup_lt_is_Some_2 _ _ Hlt) as [pc0 Hk0].
  rewrite (stopped_worker_returns_aux s _ k pc0 Hs Hk0) in Hk.
  - by simplify_eq.
  - apply stepsOf_sweep. lia.
Qed.

(** X20. From every state a run reaches, the run can go on to its end: if
    there is a seed from which the library derives a matching address, some
    continuation of the schedule brings every worker to its return. *)
Theorem run_can_finish (numCPU : Z) (fs : gmap gostring gostring)
    (acts0 : list Action) (env : Env) (address : gostring) :
  (if Version config =? 5 then generateV5Wallet (newSeed env) config
   else generateV4Wallet (newSeed env) config) = (address, None) ->
  suffixMatch ToLower address (Suffix config) (CaseSensitive config) = true ->
  exists acts : list Action,
    finished (exec config (acts0 ++ acts) (runWalletGenerator numCPU config fs)).
Proof.
  intros Hgen Hmatch.
  set (s := exec config acts0 (runWalletGenerator numCPU config fs)).
  pose proof (exec_invariant
                (fun s => InvOnce s /\ InvFound s /\ InvEnd s)
                (fun s a '(conj Ho (conj Hf He)) =>
                   conj (InvOnce_step s a Ho)
                     (conj (InvFound_step s a Hf) (InvEnd_step s a Ho Hf He)))
                acts0 _
                (conj (InvOnce_start numCPU fs)
                   (conj (InvFound_start numCPU fs) (InvEnd_start numCPU fs))))
    as (Honce & _ & Hret & _).
  fold s in Honce, Hret.
  destruct (stopClosed s) eqn:Hstop.
  - exists (sweep env 0 (length (workers s))). rewrite exec_app.
    by apply sweep_finishes.
  - destruct (workers s !! 0%nat) as [pc|] eqn:H0.
    + set (s' := exec config (replicate 6 (Work 0%nat env)) s).
      assert (stopClosed s' = true) as Hclosed.
      { apply (close_exec 6 s 0%nat pc env address); try done.
        - intros ->. specialize (Hret _ H0). congruence.
        - apply closeRank_le_6. }
      exists (replicate 6 (Work 0%nat env) ++ sweep env 0 (length (workers s'))).
      rewrite exec_app, exec_app. fold s. fold s'.
      by apply sweep_finishes.
    + exists []. rewrite app_nil_r. fold s. unfold finished.
      apply lookup_ge_None in H0.
      destruct (workers s); [constructor | simpl in H0; lia].
Qed.

End Run.

(** ** Command line *)

(** C8. [parseFlags] ends the process with status 1, after printing the
    usage, exactly when the suffix is empty or the version is neither 4 nor
    5, and no search state is created; otherwise it returns the
    configuration made of the flags and [main] starts the search with it. *)
Theorem parseFlags_rejects (numCPU : Z) (f : Flags)
    (fs : gmap gostring gostring) :
  ((flagSuffix f = [] \/ (flagVersion f <> 4 /\ flagVersion f <> 5))
   /\ parseFlags f = OsExit 1 true
   /\ main numCPU f fs = OsExit 1 true)
  \/ ((flagSuffix f <> [] /\ (flagVersion f = 4 \/ flagVersion f = 5))
      /\ parseFlags f = Return (configOf f)
      /\ main numCPU f fs = Return (runWalletGenerator numCPU (configOf f) fs)).
Proof.
  unfold main, parseFlags.
  case_bool_decide as Hsuffix; simpl.
  - left. auto.
  - destruct (Z.eqb_spec (flagVersion f) 4) as [H4 | H4];
      destruct (Z.eqb_spec (flagVersion f) 5) as [H5 | H5]; simpl;
      [right | right | right | left]; repeat split; auto.
Qed.

Example parseFlags_scenarios :
  parseFlags (mkFlags 5 [] false false 0 false []) = OsExit 1 true
  /\ parseFlags (mkFlags 3 (str "ab") false false 0 false []) = OsExit 1 true
  /\ parseFlags (mkFlags 4 (str "ab") true false 2 false [])
     = Return (mkConfig 4 (str "ab") true false 2 false [] false).
Proof. repeat split. Qed.

(** ** More on the suffix matcher *)

Lemma isASCII_app (x y : gostring) :
  isASCII (x ++ y) = true -> isASCII x = true /\ isASCII y = true.
Proof. unfold isASCII. rewrite forallb_app. apply andb_true_iff. Qed.

(** X10. For an address made of ASCII bytes, on which the fold is the
    byte-wise ASCII one, a match in case-sensitive mode is also a match in
    case-insensitive mode. *)
Theorem sensitive_match_is_insensitive (fold : gostring -> gostring)
    (a s : gostring) :
  (forall x, isASCII x = true -> fold x = asciiToLower x) ->
  isASCII a = true ->
  suffixMatch fold a s true = true ->
  suffixMatch fold a s false = true.
Proof.
  unfold suffixMatch. intros Hfold Ha [p ->]%HasSuffix_true.
  destruct (isASCII_app p s Ha) as [Hp Hs].
  rewrite (Hfold _ Ha), (Hfold _ Hs).
  apply HasSuffix_true. exists (asciiToLower p). apply map_app.
Qed.

(** X11. A suffix longer than the address never matches in case-sensitive
    mode, and never in case-insensitive mode when address and suffix are
    made of ASCII bytes, on which the fold keeps the length. *)
Theorem long_suffix_never_matches (fold : gostring -> gostring)
    (a s : gostring) :
  (forall x, isASCII x = true -> fold x = asciiToLower x) ->
  (length a < length s)%nat ->
  suffixMatch fold a s true = false
  /\ (isASCII a = true -> isASCII s = true ->
      suffixMatch fold a s false = false).
Proof.
  intros Hfold Hlen. unfold suffixMatch, HasSuffix. split.
  - destruct (Nat.leb_spec (length s) (length a)); [lia | done].
  - intros Ha Hs. rewrite (Hfold _ Ha), (Hfold _ Hs).
    unfold asciiToLower. rewrite !length_map.
    destruct (Nat.leb_spec (length s) (length a)); [lia | done].
Qed.

(** ** Writing the output file *)

(** X12. Two successful calls of [writeToFile] on a file leave what one
    call with the concatenated content leaves, the file of any other name is
    untouched by a call, whatever its outcome, and a call that cannot open
    the file changes nothing. *)
Theorem writeToFile_appends (filename other c1 c2 : gostring)
    (outcome : IoOutcome) (err : error) (fs : gmap gostring gostring) :
  writeToFile IoOk filename c2 (writeToFile IoOk filename c1 fs).1
  = writeToFile IoOk filename (c1 ++ c2) fs
  /\ (other <> filename ->
      (writeToFile outcome filename c1 fs).1 !! other = fs !! other)
  /\ writeToFile (OpenFails err) filename c1 fs = (fs, Some err).
Proof.
  repeat split.
  - unfold writeToFile. simpl. rewrite lookup_insert_eq. simpl.
    by rewrite insert_insert_eq, app_assoc.
  - intros Hne. destruct outcome; simpl; by rewrite ?lookup_insert_ne.
Qed.

(** ** The daemon flags on the command line *)

Lemma filterArgs_acc (args acc : list gostring) :
  filterArgs args acc = acc ++ filterArgs args [].
Proof.
  revert acc. induction args as [|arg args IH]; intros acc; simpl.
  - by rewrite app_nil_r.
  - destruct (isDaemonFlag arg); [apply IH|].
    rewrite (IH (acc ++ [arg])), (IH [arg]). by rewrite <- app_assoc.
Qed.

Lemma filterArgs_as_filter (osArgs : list gostring) :
  filterArgs osArgs []
  = List.filter (fun arg => negb (isDaemonFlag arg)) osArgs.
Proof.
  induction osArgs as [|arg args IH]; simpl; [done|].
  destruct (isDaemonFlag arg); simpl; [exact IH|].
  by rewrite filterArgs_acc, IH.
Qed.

Lemma filter_length_le (p : gostring -> bool) (l : list gostring) :
  (length (List.filter p l) <= length l)%nat.
Proof. induction l as [|x l IH]; simpl; [lia|]. destruct (p x); simpl; lia. Qed.

Lemma detectDaemon_filtered (osArgs : list gostring) :
  detectDaemon osArgs = true <-> filterArgs osArgs [] <> osArgs.
Proof.
  rewrite filterArgs_as_filter.
  induction osArgs as [|arg args IH]; simpl.
  - split; [discriminate | congruence].
  - destruct (isDaemonFlag arg) eqn:Harg; simpl.
    + split; [|done]. intros _ Heq.
      pose proof (filter_length_le (fun arg => negb (isDaemonFlag arg)) args)
        as Hle.
      rewrite Heq in Hle. simpl in Hle. lia.
    + rewrite IH. split; intros H; congruence.
Qed.

(** X13. The copy loop of [parseFlags] keeps exactly the arguments that are
    neither [-d] nor [--daemon], in their order. *)
Theorem filterArgs_filter (osArgs : list gostring) :
  filterArgs osArgs []
  = List.filter (fun arg => negb (isDaemonFlag arg)) osArgs.
Proof. apply filterArgs_as_filter. Qed.

(** X14. [main] takes the daemon branch exactly when the first argument
    is not the stop command and the copy loop of [parseFlags] removes
    something: apart from the stop command, which comes first, the two loops
    agree on what a daemon flag is, wherever it stands on the command
    line. *)
Theorem daemon_mode_iff_filtered (osArgs : list gostring) :
  mainMode osArgs = DaemonMode
  <-> isStopCommand osArgs = false /\ filterArgs osArgs [] <> osArgs.
Proof.
  unfold mainMode. rewrite <- detectDaemon_filtered.
  destruct (isStopCommand osArgs), (detectDaemon osArgs); split; try done;
    intros [? ?]; done.
Qed.

(** X15. The arguments handed to the flag parser: when the program name is
    not itself a daemon flag they are the remaining arguments without the
    daemon flags; the slice [filteredArgs[1:]] is out of range exactly when
    every element of [os.Args] is a daemon flag. *)
Theorem parsedArgs_spec (prog : gostring) (rest : list gostring) :
  isDaemonFlag prog = false ->
  parsedArgs (prog :: rest)
  = Some (List.filter (fun arg => negb (isDaemonFlag arg)) rest)
  /\ (forall osArgs,
        parsedArgs osArgs = None
        <-> Forall (fun arg => isDaemonFlag arg = true) osArgs).
Proof.
  intros Hprog. split.
  - unfold parsedArgs. rewrite filterArgs_as_filter. simpl. by rewrite Hprog.
  - intros osArgs. unfold parsedArgs. rewrite filterArgs_as_filter.
    induction osArgs as [|arg args IH]; simpl.
    + split; [constructor | done].
    + destruct (isDaemonFlag arg) eqn:Harg; simpl.
      * rewrite IH. split; [by constructor | by inversion 1].
      * split; [discriminate|]. inversion 1; congruence.
Qed.

(** X16. The stop command wins over everything else on the command line;
    and in normal mode the arguments after the program name reach the flag
    parser as they are. *)
Theorem mainMode_dispatch (osArgs : list gostring) :
  osArgs <> [] ->
  (isStopCommand osArgs = true -> mainMode osArgs = StopMode)
  /\ (mainMode osArgs = NormalMode -> parsedArgs osArgs = Some (tail osArgs))
  /\ (mainMode osArgs = DaemonMode ->
      exists arg, In arg osArgs
                  /\ (arg = str "-d" \/ arg = str "--daemon")).
Proof.
  intros Hne. unfold mainMode. repeat split.
  - by intros ->.
  - destruct (isStopCommand osArgs); [discriminate|].
    destruct (detectDaemon osArgs) eqn:Hd; [discriminate|]. intros _.
    assert (filterArgs osArgs [] = osArgs) as Heq.
    { destruct (decide (filterArgs osArgs [] = osArgs)) as [|Hn]; [done|].
      apply detectDaemon_filtered in Hn. congruence. }
    unfold parsedArgs. rewrite Heq. by destruct osArgs.
  - destruct (isStopCommand osArgs); [discriminate|].
    destruct (detectDaemon osArgs) eqn:Hd; [|discriminate]. intros _.
    clear Hne. induction osArgs as [|arg args IH]; [discriminate|].
    simpl in Hd. destruct (isDaemonFlag arg) eqn:Harg.
    + exists arg. split; [by left|]. unfold isDaemonFlag in Harg.
      apply orb_true_iff in Harg as [H | H];
        apply bool_decide_eq_true in H; auto.
    + destruct (IH Hd) as (x & Hx & Hflag). exists x. split; [by right | done].
Qed.

(** ** The earlier versions *)

Section Versions.

Context {lib : Library}.

Lemma printFoundWallet_nil env seed address w :
  printFoundWallet env seed address [] w
  = WithVersion.printFoundWallet seed address w.
Proof. reflexivity. Qed.





End Versions.

(** The ASCII fold works byte by byte. *)
Lemma asciiToLower_app (x y : gostring) :
  asciiToLower (x ++ y) = asciiToLower x ++ asciiToLower y.
Proof. apply map_app. Qed.

Lemma asciiToLower_length (x : gostring) :
  length (asciiToLower x) = length x.
Proof. apply length_map. Qed.

(** * Worked runs *)

(** Evaluate a run. *)
Ltac run := vm_compute; reflexivity.

(** The matcher on a sample address, with the ASCII fold. *)
Lemma suffixMatch_correct_witness :
  asciiToLower [] = []
  /\ ((suffixMatch asciiToLower (str "UQDxyzXAB") (str "ab") true = true
       <-> exists p, str "UQDxyzXAB" = p ++ str "ab")
      /\ (suffixMatch asciiToLower (str "UQDxyzXAB") (str "ab") false = true
          <-> exists p, asciiToLower (str "UQDxyzXAB")
                        = p ++ asciiToLower (str "ab"))
      /\ suffixMatch asciiToLower (str "UQDxyzXAB") [] true = true
      /\ suffixMatch asciiToLower (str "UQDxyzXAB") [] false = true).
Proof.
  split; [reflexivity|].
  apply (suffixMatch_correct asciiToLower (str "UQDxyzXAB") (str "ab")).
  reflexivity.
Defined.


(** A worker whose derivation fails: the seed is refused by the library. *)
Lemma derivation_failure_skipped_witness :
  let config := demoConfig 1 "" in
  let s := demoRun 1 "" [Work 0 badSeed] in
  let s' := @step demoLibrary config s (Work 0 badSeed) in
  workers s !! 0%nat = Some AtGenerate
  /\ (if Version config =? 5
      then @generateV5Wallet demoLibrary (newSeed badSeed) config
      else @generateV4Wallet demoLibrary (newSeed badSeed) config)
     = ([], Some (str "empty seed"))
  /\ (counter s' = counter s
      /\ stopClosed s' = stopClosed s
      /\ onceDone s' = onceDone s
      /\ workers s' = <[0%nat := AtSelect]> (workers s)
      /\ workers s' !! 0%nat = Some AtSelect
      /\ reporterRunning s' = reporterRunning s
      /\ logs (world s') = logs (world s) ++ [LogFailedCreate (str "empty seed")]
      /\ stdout (world s') = stdout (world s)
      /\ files (world s') = files (world s)
      /\ history s' = EvDeriveFailed 0 (str "empty seed") :: history s).
Proof.
  intros config s s'.
  split; [run|]. split; [run|].
  apply (@derivation_failure_skipped demoLibrary config s 0%nat badSeed []
           (str "empty seed")); run.
Defined.

(** After a failed derivation the same worker goes on and finds a match. *)
Example failure_then_match :
  let s := demoRun 1 "" ([Work 0 badSeed; Work 0 badSeed] ++ iteration 0 "xxab") in
  finished s /\ counter s = 0 /\ foundReports (world s) = 1%nat
  /\ deltas (logs (world s)) = []
  /\ logs (world s) = [LogUsingThreads 1; LogFailedCreate (str "empty seed")].
Proof.
  intros s. assert (workers s = [Returned]) as Hw by run.
  split; [unfold finished; rewrite Hw; repeat constructor|].
  repeat split; run.
Qed.

(** C4, the claim as the specification has it, fails: in [lateSchedule] the
    run is complete, the counter is 2, and the only delta written is 1. *)
Lemma deltas_miss_final_count :
  let s := demoRun 1 "" lateSchedule in
  finished s
  /\ reporterRunning s = false
  /\ counter s = 2
  /\ deltas (logs (world s)) = [1]
  /\ sumZ (deltas (logs (world s))) <> counter s.
Proof.
  intros s.
  assert (workers s = [Returned]) as Hw by run.
  assert (counter s = 2) as Hc by run.
  assert (deltas (logs (world s)) = [1]) as Hd by run.
  split; [unfold finished; rewrite Hw; repeat constructor|].
  split; [run|]. split; [exact Hc|]. split; [exact Hd|].
  rewrite Hd, Hc. discriminate.
Qed.

Lemma progress_deltas_witness :
  let s := demoRun 1 "" lateSchedule in
  Z.of_nat (length lateSchedule) < 2 ^ 64
  /\ (Forall (fun d => 0 <= d) (deltas (logs (world s)))
      /\ sumZ (deltas (logs (world s))) = lastCount s
      /\ lastCount s <= counter s).
Proof.
  intros s. split; [run|].
  apply (@progress_deltas demoLibrary (demoConfig 1 "") 8 ∅ lateSchedule).
  run.
Defined.

(** C5, the claim as the specification has it, fails: [-threads -1] is
    accepted, the resolved count is -1 and no worker is started. *)
Lemma negative_thread_count :
  let config := demoConfig (-1) "" in
  parseFlags (mkFlags 5 (str "ab") false false (-1) false []) = Return config
  /\ resolveThreads 8 config = -1
  /\ ~ (1 <= resolveThreads 8 config)
  /\ workers (runWalletGenerator 8 config ∅) = []
  /\ finished (runWalletGenerator 8 config ∅).
Proof.
  intros config. split; [run|]. split; [run|].
  split; [change (resolveThreads 8 config) with (-1); lia|].
  split; [run | constructor].
Qed.

(** The scenario of the specification: 0 threads on a machine with 8 CPUs. *)
Lemma worker_count_resolved_witness :
  let config := demoConfig 0 "" in
  let n := resolveThreads 8 config in
  let s := runWalletGenerator 8 config ∅ in
  1 <= 8
  /\ ((Threads config = 0 -> n = 8)
      /\ (Threads config <> 0 -> n = Threads config)
      /\ length (workers s) = Z.to_nat n
      /\ Forall (fun pc => pc = AtSelect) (workers s)
      /\ (0 <= Threads config -> 1 <= n /\ Z.of_nat (length (workers s)) = n)
      /\ (Threads config < 0 ->
          n = Threads config /\ n < 0 /\ workers s = [] /\ finished s)
      /\ (forall f : Flags,
            flagSuffix f <> [] ->
            flagVersion f = 4 \/ flagVersion f = 5 ->
            exists c, parseFlags f = Return c /\ Threads c = flagThreads f)).
Proof.
  intros config n s. split; [lia|].
  apply (worker_count_resolved config 8 ∅). lia.
Defined.

Example eight_workers : resolveThreads 8 (demoConfig 0 "") = 8
  /\ length (workers (runWalletGenerator 8 (demoConfig 0 "") ∅)) = 8%nat.
Proof. split; run. Qed.

Lemma counter_monotone_stop_once_witness :
  let acts1 := iteration 0 "zzzz" in
  let acts2 := iteration 0 "xxab" in
  let s1 := demoRun 1 "" acts1 in
  let s2 := demoRun 1 "" (acts1 ++ acts2) in
  Z.of_nat (length (acts1 ++ acts2)) < 2 ^ 64
  /\ (counter s1 <= counter s2
      /\ (stopClosed s1 = true -> stopClosed s2 = true)
      /\ (count isClose (history s2) <= 1)%nat
      /\ counter s1 = Z.of_nat (count isIncr (history s1))
      /\ counter s2 = Z.of_nat (count isIncr (history s2))).
Proof.
  intros acts1 acts2 s1 s2. split; [run|].
  apply (@counter_monotone_stop_once demoLibrary (demoConfig 1 "") 8 ∅
           acts1 acts2).
  run.
Defined.

Example counter_grows :
  counter (demoRun 1 "" (iteration 0 "zzzz")) = 1
  /\ counter (demoRun 1 "" (iteration 0 "zzzz" ++ iteration 0 "xxab")) = 1
  /\ stopClosed (demoRun 1 "" (iteration 0 "zzzz" ++ iteration 0 "xxab")) = true.
Proof. repeat split; run. Qed.

Lemma stopped_task_is_quiet_witness :
  let s := demoRun 2 "" stopSchedule in
  let earlier :=
    [ EvOnce 0 true; EvFound 0 [str "xxab"] (str "xxab");
      EvDerived 0 [str "xxab"] (str "xxab"); EvDefault 0 ] in
  history s = [EvStopSeen Reporter] ++ EvStopSeen (Worker 1) :: earlier
  /\ (returned s (Worker 1)
      /\ Forall (fun e => actor e <> Worker 1) [EvStopSeen Reporter]).
Proof.
  intros s earlier. split; [run|].
  apply (@stopped_task_is_quiet demoLibrary (demoConfig 2 "") 8 ∅
           stopSchedule [EvStopSeen Reporter] (Worker 1) earlier).
  run.
Defined.


(** The record on a sample: the text the file receives. *)
Example found_record_text :
  foundRecord (str "2024-01-01 00:00:00") [str "alpha"; str "beta"] (str "UQxxab")
  = str "=== FOUND 2024-01-01 00:00:00 ===" ++ ["010"%char]
    ++ str "Seed: alpha beta" ++ ["010"%char]
    ++ str "Address: UQxxab" ++ ["010"%char; "010"%char].
Proof. reflexivity. Qed.

(** The file after that step. *)
Example found_file :
  let s := demoRun 1 "found.txt" (iteration 0 "xxab") in
  files (world s) !! str "found.txt"
  = Some (str "=== FOUND 2024-01-01 00:00:00 ===" ++ nl ++ str "Seed: xxab"
          ++ nl ++ str "Address: xxab" ++ nl ++ nl)
  /\ stdout (world s)
     = [ banner; str "Seed phrase: xxab"; str "Wallet address: xxab";
         str "Results saved to: found.txt" ].
Proof. split; run. Qed.

(** The same match when the file cannot be opened: the result is printed,
    the failure is logged, no file appears, and the worker closes the stop
    channel. *)
Example persistence_failure :
  let env := mkEnv [str "xxab"] (str "2024-01-01 00:00:00")
               (OpenFails (str "permission denied")) in
  let s := demoRun 1 "found.txt" (replicate 4 (Work 0 env)) in
  workers s = [Returned]
  /\ stopClosed s = true
  /\ stdout (world s)
     = [banner; str "Seed phrase: xxab"; str "Wallet address: xxab"]
  /\ logs (world s)
     = [LogUsingThreads 1; LogFailedWrite (str "permission denied")]
  /\ files (world s) !! str "found.txt" = None.
Proof. repeat split; run. Qed.

Lemma counter_counts_rejected_witness :
  let s := demoRun 1 "" lateSchedule in
  Z.of_nat (length lateSchedule) < 2 ^ 64
  /\ finished s
  /\ counter s = Z.of_nat (count (@isRejected demoLibrary (demoConfig 1 ""))
                             (history s)).
Proof.
  intros s.
  assert (workers s = [Returned]) as Hw by run.
  assert (finished s) as Hfin.
  { unfold finished. rewrite Hw. repeat constructor. }
  split; [run|]. split; [exact Hfin|].
  apply (@counter_counts_rejected demoLibrary (demoConfig 1 "") 8 ∅
           lateSchedule); [run | exact Hfin].
Defined.

(** ** Worked runs for the further properties *)

Lemma reported_wallets_are_sound_witness :
  let config := demoConfig 2 "" in
  let s := demoRun 2 "" raceSchedule in
  In (EvFound 1 [str "yyAB"] (str "yyAB")) (history s)
  /\ ((exists w : gostring,
          demoFromSeed [str "yyAB"] (versionConfig config) = inl w
          /\ str "yyAB" = w)
      /\ suffixMatch asciiToLower (str "yyAB") (Suffix config)
           (CaseSensitive config) = true).
Proof.
  intros config s.
  assert (In (EvFound 1 [str "yyAB"] (str "yyAB")) (history s)) as Hin.
  { assert (history s
            = [ EvOnce 1 false; EvOnce 0 true;
                EvFound 1 [str "yyAB"] (str "yyAB");
                EvFound 0 [str "xxab"] (str "xxab");
                EvDerived 1 [str "yyAB"] (str "yyAB");
                EvDerived 0 [str "xxab"] (str "xxab");
                EvDefault 1; EvDefault 0 ]) as -> by run.
    right. right. left. reflexivity. }
  split; [exact Hin|].
  exact (@reported_wallets_are_sound demoLibrary config 8 ∅ raceSchedule
           1%nat [str "yyAB"] (str "yyAB") Hin).
Defined.

Lemma finished_run_has_match_witness :
  let s := demoRun 1 "" lateSchedule in
  1 <= resolveThreads 8 (demoConfig 1 "")
  /\ finished s
  /\ (stopClosed s = true
      /\ (1 <= foundReports (world s))%nat
      /\ (foundReports (world s)
          <= Z.to_nat (resolveThreads 8 (demoConfig 1 "")))%nat).
Proof.
  intros s.
  assert (workers s = [Returned]) as Hw by run.
  assert (finished s) as Hfin.
  { unfold finished. rewrite Hw. repeat constructor. }
  assert (1 <= resolveThreads 8 (demoConfig 1 "")) as Hn
    by (vm_compute; discriminate).
  split; [exact Hn|]. split; [exact Hfin|].
  subst s.
  apply (@finished_run_has_match demoLibrary (demoConfig 1 "") 8 ∅
           lateSchedule Hn Hfin).
Defined.

Lemma stopped_worker_returns_witness :
  let s := demoRun 2 "" (iteration 0 "xxab") in
  let acts := replicate 4 (Work 1 (seedOf "zzzz")) in
  stopClosed s = true
  /\ workers s !! 1%nat = Some AtSelect
  /\ (4 <= stepsOf 1 acts)%nat
  /\ workers (@exec demoLibrary (demoConfig 2 "") acts s) !! 1%nat
     = Some Returned.
Proof.
  intros s acts.
  assert (stopClosed s = true) as Hs by run.
  assert (workers s !! 1%nat = Some AtSelect) as Hk by run.
  assert (4 <= stepsOf 1 acts)%nat as Hn by (vm_compute; lia).
  split; [exact Hs|]. split; [exact Hk|]. split; [exact Hn|].
  exact (@stopped_worker_returns demoLibrary (demoConfig 2 "") s acts 1%nat
           AtSelect Hs Hk Hn).
Defined.

(** Worker 1 is in the middle of an iteration when worker 0 closes the
    channel, and counts its candidate afterwards. *)
Lemma increments_after_stop_witness :
  let acts1 := [Work 1 (seedOf "zzzz"); Work 1 (seedOf "zzzz")]
               ++ iteration 0 "xxab" in
  let acts2 := replicate 3 (Work 1 (seedOf "zzzz")) in
  let s1 := demoRun 2 "" acts1 in
  let s2 := demoRun 2 "" (acts1 ++ acts2) in
  Z.of_nat (length (acts1 ++ acts2)) < 2 ^ 64
  /\ stopClosed s1 = true
  /\ (counter s2 <= counter s1 + Z.of_nat (count inFlight (workers s1))
      /\ counter s2 <= counter s1 + Z.of_nat (length (workers s1))).
Proof.
  intros acts1 acts2 s1 s2.
  assert (Z.of_nat (length (acts1 ++ acts2)) < 2 ^ 64) as Hlen by run.
  assert (stopClosed s1 = true) as Hs by run.
  split; [exact Hlen|]. split; [exact Hs|].
  exact (@increments_after_stop demoLibrary (demoConfig 2 "") 8 ∅
           acts1 acts2 Hlen Hs).
Defined.

Example counted_after_stop :
  let acts1 := [Work 1 (seedOf "zzzz"); Work 1 (seedOf "zzzz")]
               ++ iteration 0 "xxab" in
  counter (demoRun 2 "" acts1) = 0
  /\ counter (demoRun 2 "" (acts1 ++ replicate 3 (Work 1 (seedOf "zzzz")))) = 1.
Proof. split; run. Qed.

Lemma iterations_accounted_witness :
  let acts := [Work 0 badSeed; Work 0 badSeed] ++ iteration 0 "zzzz"
              ++ iteration 0 "xxab" in
  let s := demoRun 1 "" acts in
  Z.of_nat (length acts) < 2 ^ 64
  /\ finished s
  /\ Z.of_nat (count isDefault (history s))
     = Z.of_nat (count isFailedLine (logs (world s)))
       + Z.of_nat (foundReports (world s)) + counter s.
Proof.
  intros acts s.
  assert (Z.of_nat (length acts) < 2 ^ 64) as Hlen by run.
  assert (workers s = [Returned]) as Hw by run.
  assert (finished s) as Hfin.
  { unfold finished. rewrite Hw. repeat constructor. }
  split; [exact Hlen|]. split; [exact Hfin|].
  exact (@iterations_accounted demoLibrary (demoConfig 1 "") 8 ∅ acts
           Hlen Hfin).
Defined.


Lemma reporter_is_read_only_witness :
  let s := demoRun 1 "" (iteration 0 "zzzz") in
  let acts := [Report TimerFired; Report StopReceived; Report TimerFired] in
  let s' := @exec demoLibrary (demoConfig 1 "") acts s in
  Forall (fun a => isReport a = true) acts
  /\ (counter s' = counter s /\ stopClosed s' = stopClosed s
      /\ onceDone s' = onceDone s /\ workers s' = workers s
      /\ stdout (world s') = stdout (world s)
      /\ files (world s') = files (world s)).
Proof.
  intros s acts s'.
  assert (Forall (fun a => isReport a = true) acts) as Hall
    by (repeat constructor).
  split; [exact Hall|].
  exact (@reporter_is_read_only demoLibrary (demoConfig 1 "") s acts Hall).
Defined.

Lemma returned_worker_stays_witness :
  let s := demoRun 2 "" stopSchedule in
  let acts := iteration 1 "xxab" in
  workers s !! 1%nat = Some Returned
  /\ (workers (@exec demoLibrary (demoConfig 2 "") acts s) !! 1%nat
      = Some Returned
      /\ length (workers (@exec demoLibrary (demoConfig 2 "") acts s))
         = length (workers s)).
Proof.
  intros s acts.
  assert (workers s !! 1%nat = Some Returned) as Hk by run.
  split; [exact Hk|].
  exact (@returned_worker_stays demoLibrary (demoConfig 2 "") s acts 1%nat Hk).
Defined.

Lemma matching_iteration_witness :
  let config := demoConfig 1 "" in
  let s := demoStart 1 "" in
  let env := seedOf "xxab" in
  workers s !! 0%nat = Some AtSelect
  /\ stopClosed s = false
  /\ onceDone s = false
  /\ (if Version config =? 5
      then @generateV5Wallet demoLibrary (newSeed env) config
      else @generateV4Wallet demoLibrary (newSeed env) config)
     = (str "xxab", None)
  /\ suffixMatch asciiToLower (str "xxab") (Suffix config)
       (CaseSensitive config) = true
  /\ @exec demoLibrary config (replicate 4 (Work 0 env)) s
     = mkState (counter s) true true (<[0%nat := Returned]> (workers s))
         (lastCount s) (reporterRunning s)
         (printFoundWallet env (newSeed env) (str "xxab") (Output config)
            (world s))
         ([ EvOnce 0 true; EvFound 0 (newSeed env) (str "xxab");
            EvDerived 0 (newSeed env) (str "xxab"); EvDefault 0 ]
          ++ history s).
Proof.
  intros config s env.
  assert (workers s !! 0%nat = Some AtSelect) as H1 by run.
  assert (stopClosed s = false) as H2 by run.
  assert (onceDone s = false) as H3 by run.
  assert ((if Version config =? 5
           then @generateV5Wallet demoLibrary (newSeed env) config
           else @generateV4Wallet demoLibrary (newSeed env) config)
          = (str "xxab", None)) as H4 by run.
  assert (suffixMatch asciiToLower (str "xxab") (Suffix config)
            (CaseSensitive config) = true) as H5 by run.
  repeat (split; [assumption|]).
  exact (@matching_iteration demoLibrary config s 0%nat env (str "xxab")
           H1 H2 H3 H4 H5).
Defined.

Lemma rejected_iteration_witness :
  let config := demoConfig 1 "" in
  let s := demoStart 1 "" in
  let env := seedOf "zzzz" in
  workers s !! 0%nat = Some AtSelect
  /\ stopClosed s = false
  /\ (if Version config =? 5
      then @generateV5Wallet demoLibrary (newSeed env) config
      else @generateV4Wallet demoLibrary (newSeed env) config)
     = (str "zzzz", None)
  /\ suffixMatch asciiToLower (str "zzzz") (Suffix config)
       (CaseSensitive config) = false
  /\ @exec demoLibrary config (replicate 4 (Work 0 env)) s
     = mkState (uint64 (counter s + 1)) (stopClosed s) (onceDone s)
         (workers s) (lastCount s) (reporterRunning s) (world s)
         ([ EvIncr 0; EvNoMatch 0; EvDerived 0 (newSeed env) (str "zzzz");
            EvDefault 0 ] ++ history s).
Proof.
  intros config s env.
  assert (workers s !! 0%nat = Some AtSelect) as H1 by run.
  assert (stopClosed s = false) as H2 by run.
  assert ((if Version config =? 5
           then @generateV5Wallet demoLibrary (newSeed env) config
           else @generateV4Wallet demoLibrary (newSeed env) config)
          = (str "zzzz", None)) as H4 by run.
  assert (suffixMatch asciiToLower (str "zzzz") (Suffix config)
            (CaseSensitive config) = false) as H5 by run.
  repeat (split; [assumption|]).
  exact (@rejected_iteration demoLibrary config s 0%nat env (str "zzzz")
           H1 H2 H4 H5).
Defined.

Lemma no_new_iteration_after_stop_witness :
  let s := demoRun 2 "" (iteration 0 "xxab") in
  let acts := replicate 4 (Work 1 (seedOf "zzzz")) in
  stopClosed s = true
  /\ count isDefault (history (@exec demoLibrary (demoConfig 2 "") acts s))
     = count isDefault (history s).
Proof.
  intros s acts.
  assert (stopClosed s = true) as Hs by run.
  split; [exact Hs|].
  exact (@no_new_iteration_after_stop demoLibrary (demoConfig 2 "") s acts Hs).
Defined.

Lemma run_can_finish_witness :
  let config := demoConfig 2 "" in
  let env := seedOf "xxab" in
  let acts0 := [Work 0 (seedOf "zzzz"); Work 1 (seedOf "zzzz")] in
  (if Version config =? 5
   then @generateV5Wallet demoLibrary (newSeed env) config
   else @generateV4Wallet demoLibrary (newSeed env) config)
  = (str "xxab", None)
  /\ suffixMatch asciiToLower (str "xxab") (Suffix config)
       (CaseSensitive config) = true
  /\ exists acts : list Action,
       finished (@exec demoLibrary config (acts0 ++ acts)
                   (runWalletGenerator 8 config ∅)).
Proof.
  intros config env acts0.
  assert ((if Version config =? 5
           then @generateV5Wallet demoLibrary (newSeed env) config
           else @generateV4Wallet demoLibrary (newSeed env) config)
          = (str "xxab", None)) as H1 by run.
  assert (suffixMatch asciiToLower (str "xxab") (Suffix config)
            (CaseSensitive config) = true) as H2 by run.
  split; [exact H1|]. split; [exact H2|].
  exact (@run_can_finish demoLibrary config 8 ∅ acts0 env (str "xxab") H1 H2).
Defined.

Lemma sensitive_match_is_insensitive_witness :
  (forall x, isASCII x = true -> asciiToLower x = asciiToLower x)
  /\ isASCII (str "UQDxyzXab") = true
  /\ suffixMatch asciiToLower (str "UQDxyzXab") (str "ab") true = true
  /\ suffixMatch asciiToLower (str "UQDxyzXab") (str "ab") false = true.
Proof.
  split; [reflexivity|]. split; [reflexivity|]. split; [reflexivity|].
  exact (sensitive_match_is_insensitive asciiToLower (str "UQDxyzXab")
           (str "ab") (fun x _ => eq_refl) eq_refl eq_refl).
Defined.

Lemma long_suffix_never_matches_witness :
  (forall x, isASCII x = true -> asciiToLower x = asciiToLower x)
  /\ (length (str "ab") < length (str "xxab"))%nat
  /\ (suffixMatch asciiToLower (str "ab") (str "xxab") true = false
      /\ (isASCII (str "ab") = true -> isASCII (str "xxab") = true ->
          suffixMatch asciiToLower (str "ab") (str "xxab") false = false)).
Proof.
  assert (length (str "ab") < length (str "xxab"))%nat as Hlen
    by (vm_compute; lia).
  split; [reflexivity|]. split; [exact Hlen|].
  exact (long_suffix_never_matches asciiToLower (str "ab") (str "xxab")
           (fun x _ => eq_refl) Hlen).
Defined.

Lemma parsedArgs_spec_witness :
  let rest := [str "-d"; str "-suffix"; str "ab"; str "--daemon"] in
  isDaemonFlag (str "tongen") = false
  /\ (parsedArgs (str "tongen" :: rest)
      = Some (List.filter (fun arg => negb (isDaemonFlag arg)) rest)
      /\ (forall osArgs,
            parsedArgs osArgs = None
            <-> Forall (fun arg => isDaemonFlag arg = true) osArgs)).
Proof.
  intros rest. split; [reflexivity|].
  exact (parsedArgs_spec (str "tongen") rest eq_refl).
Defined.

(** What the copy loop does to some command lines: a daemon flag is dropped
    wherever it stands, also where it was meant as the value of another flag;
    and when the program name is itself a daemon flag the first real argument
    is taken for the program name. *)
Example parsedArgs_scenarios :
  parsedArgs [str "tongen"; str "-d"; str "-suffix"; str "ab"]
  = Some [str "-suffix"; str "ab"]
  /\ parsedArgs [str "tongen"; str "-suffix"; str "-d"] = Some [str "-suffix"]
  /\ parsedArgs [str "-d"; str "-suffix"; str "ab"] = Some [str "ab"]
  /\ parsedArgs [str "-d"] = None
  /\ mainMode [str "tongen"; str "stop"; str "-d"] = StopMode
  /\ mainMode [str "tongen"; str "-suffix"; str "-d"] = DaemonMode.
Proof. repeat split. Qed.

Lemma mainMode_dispatch_witness :
  let osArgs := [str "tongen"; str "-suffix"; str "ab"] in
  osArgs <> []
  /\ ((isStopCommand osArgs = true -> mainMode osArgs = StopMode)
      /\ (mainMode osArgs = NormalMode -> parsedArgs osArgs = Some (tail osArgs))
      /\ (mainMode osArgs = DaemonMode ->
          exists arg, In arg osArgs
                      /\ (arg = str "-d" \/ arg = str "--daemon"))).
Proof.
  intros osArgs.
  assert (osArgs <> []) as Hne by discriminate.
  split; [exact Hne|].
  exact (mainMode_dispatch osArgs Hne).
Defined.
